(** * backend/app.py: the upload / query handlers and the query-engine cache

    A shallow embedding of [src/backend/app.py].  The module keeps one
    process-wide dictionary [session_state] (a session identifier and a cache
    of query engines keyed by strings) and exposes two request handlers,
    [upload_file] and [query], plus the index builder [setup_llama_index].

    Everything the handlers call outside the module (the temporary directory,
    the file objects, llama_index and the Cohere clients) is an external
    call: the environment decides, from the whole current world, whether the
    call raises and what it returns.  Each external call is recorded in a
    trace, newest event first.

    Modelling decisions, all documented where they are made:
    - Python exceptions are the instances of [Exception]; what [except
      Exception] does not catch (KeyboardInterrupt, task cancellation) is
      outside the model.
    - [print] appends to the standard output and does not raise.
    - Query engines are values.  The source mutates an engine only inside
      [setup_llama_index] ([update_prompts]) before the engine is shared, and
      the library's [query] is taken not to reconfigure the engine.
    - The files change only through the handler's own operations (opening
      and writing the upload, removing the temporary directory); what the
      library may write on its own is not modelled.
    - Both handlers are [async def], the only [await] is [file.read()] inside
      [upload_file], and nothing before it touches [session_state]: a handler
      run is one atomic step on [session_state]. *)

From Stdlib Require Import ZArith String Ascii List.
From Stdlib.Strings Require Import Byte.
From stdpp Require Import base option list gmap strings pretty.

Local Open Scope Z_scope.
Local Open Scope string_scope.
Local Open Scope list_scope.

(** ** POSIX paths: [os.path.join] and path resolution *)

Module Path.

Definition sep : ascii := "/"%char.

(** [s.startswith("/")] *)
Definition startswith_sep (s : string) : bool :=
  match s with
  | String c _ => bool_decide (c = sep)
  | EmptyString => false
  end.

(** [s.endswith("/")] *)
Fixpoint endswith_sep (s : string) : bool :=
  match s with
  | EmptyString => false
  | String c EmptyString => bool_decide (c = sep)
  | String _ s' => endswith_sep s'
  end.

(** [posixpath.join(a, b)] for two arguments: an absolute [b] replaces
    [a]; otherwise [b] is appended, with a separator unless [a] is empty
    or already ends with one. *)
Definition join (a b : string) : string :=
  if startswith_sep b then b
  else if bool_decide (a = "") || endswith_sep a then a +:+ b
  else a +:+ "/" +:+ b.

(** [s.split("/")] *)
Fixpoint split (s : string) : list string :=
  match s with
  | EmptyString => [""]
  | String c s' =>
      if bool_decide (c = sep) then "" :: split s'
      else match split s' with
           | h :: t => String c h :: t
           | [] => [String c ""]
           end
  end.

(** One step of the kernel's path walk from a directory [cur] (a list of
    names below the root, outermost first): empty names and [.] stay,
    [..] goes to the parent (the root is its own parent), any other name
    goes down.  Symbolic links are not modelled. *)
Definition walk (cur : list string) (name : string) : list string :=
  if bool_decide (name = "") then cur
  else if bool_decide (name = ".") then cur
  else if bool_decide (name = "..") then removelast cur
  else cur ++ [name].

(** The file a path names, resolved from the root (the paths the handlers
    build start from the absolute name of the temporary directory). *)
Definition resolve (p : string) : list string :=
  fold_left walk (split p) [].

(** [p] lies strictly below the directory [d]. *)
Definition inside (d p : list string) : bool :=
  bool_decide (d `prefix_of` p) && negb (bool_decide (d = p)).

(** [sep in s] *)
Fixpoint has_sep (s : string) : bool :=
  match s with
  | EmptyString => false
  | String c s' => bool_decide (c = sep) || has_sep s'
  end.

(** A file name that is one ordinary directory entry: not empty, not [.]
    or [..], and without a separator. *)
Definition plain (name : string) : bool :=
  negb (has_sep name) && negb (bool_decide (name = ""))
  && negb (bool_decide (name = ".")) && negb (bool_decide (name = "..")).

End Path.

(** ** Exceptions *)

(** [HTTPException] is FastAPI's; [Exception] stands for every other
    exception class, carrying what [str] gives for it. *)
Inductive exn : Type :=
| HTTPException (status_code : Z) (detail : string)
| Exception (message : string).

(** [str(e)].  Starlette's [HTTPException.__str__] is
    [f"{self.status_code}: {self.detail}"]. *)
Definition str (e : exn) : string :=
  match e with
  | HTTPException status_code detail => pretty status_code +:+ ": " +:+ detail
  | Exception message => message
  end.

(** ** Requests and responses *)

Definition bytes : Type := list byte.

(** [fastapi.UploadFile]: the client's file name and the uploaded bytes. *)
Record UploadFile : Type := { filename : string; contents : bytes }.

(** [class QueryRequest(BaseModel)] *)
Record QueryRequest : Type := { prompt : string; file_key : string }.

(** A handler returns a flat JSON object with string values. *)
Abbreviation json := (gmap string string).

(** What FastAPI sends for a handler's outcome: the returned object with
    status 200, an [HTTPException] with its own status and its detail under
    ["detail"], anything else as a bare 500. *)
Definition http_response (r : exn + json) : Z * json :=
  match r with
  | inr body => (200, body)
  | inl (HTTPException status_code detail) => (status_code, {[ "detail" := detail ]})
  | inl (Exception _) => (500, ∅)
  end.

(** ** Objects configured by the module *)

Record Reader : Type :=
  { input_dir : string; required_exts : list string; recursive : bool }.
Record LLM : Type := { llm_api_key : option string; llm_model : string }.
Record Embedding : Type :=
  { cohere_api_key : option string; model_name : string; input_type : string }.
Record Rerank : Type := { rerank_model : string; rerank_api_key : option string }.
Record Prompt : Type := { template : string }.

(** ** The external library *)

(** The object types of llama_index that the module only passes around, the
    prompts an engine currently uses ([get_prompts]), and what
    [update_prompts] does to an engine: the given prompts replace the
    engine's prompts of the same names. *)
Class LlamaIndex : Type := {
  Document : Type;
  VectorStoreIndex : Type;
  QueryEngine : Type;
  Response : Type;
  get_prompts : QueryEngine → gmap string Prompt;
  set_prompts : gmap string Prompt → QueryEngine → QueryEngine;
  get_set_prompts : ∀ d qe k t,
    d !! k = Some t → get_prompts (set_prompts d qe) !! k = Some t;
}.

Section App.

Context `{LlamaIndex}.

(** [API_KEY = os.getenv("COHERE_API_KEY")]: read once when the module is
    loaded; [None] when the variable is not set. *)
Variable API_KEY : option string.

(** ** The shared state *)

(** [session_state = {"id": ..., "file_cache": {...}}] *)
Record SessionState : Type := {
  session_id : string;
  file_cache : gmap string QueryEngine;
}.

(** ** External calls and the trace *)

Inductive Call : Type :=
| TemporaryDirectory_enter
| TemporaryDirectory_exit (temp_dir : string)
| open_wb (file_path : string)
| file_read (file : UploadFile)
| f_write (file_path : string) (data : bytes)
| SimpleDirectoryReader (loader : Reader)
| load_data (loader : Reader)
| Cohere (llm : LLM)
| CohereEmbedding (embed_model : Embedding)
| CohereRerank (cohere_rerank : Rerank)
| from_documents (docs : list Document) (show_progress : bool)
| as_query_engine (index : VectorStoreIndex) (streaming : bool)
    (node_postprocessors : list Rerank)
| PromptTemplate (qa_prompt_tmpl : Prompt)
| update_prompts (query_engine : QueryEngine) (prompts_dict : gmap string Prompt)
| query_engine_query (query_engine : QueryEngine) (prompt : string)
| response_str (response : Response).

(** The trace records every external call with the exception it raised, if
    any, and three bookkeeping events: [setup_llama_index] was entered,
    [setup_llama_index] returned an engine, and the cache was assigned. *)
Inductive Event : Type :=
| EvCall (c : Call) (raised : option exn)
| EvSetupEnter (file_path file_key : string)
| EvSetupReturn (file_key : string) (query_engine : QueryEngine)
| EvCachePut (file_key : string) (query_engine : QueryEngine).

(** ** The world *)

Record World : Type := {
  session_state : SessionState;
  Settings_embed_model : option Embedding;
  Settings_llm : option LLM;
  fs : gmap (list string) bytes;
  stdout : list string;
  trace : list Event;
}.

Definition set_session_state (f : SessionState → SessionState) (w : World) : World :=
  {| session_state := f (session_state w);
     Settings_embed_model := Settings_embed_model w;
     Settings_llm := Settings_llm w;
     fs := fs w; stdout := stdout w; trace := trace w |}.

Definition set_Settings_embed_model (m : Embedding) (w : World) : World :=
  {| session_state := session_state w;
     Settings_embed_model := Some m;
     Settings_llm := Settings_llm w;
     fs := fs w; stdout := stdout w; trace := trace w |}.

Definition set_Settings_llm (l : LLM) (w : World) : World :=
  {| session_state := session_state w;
     Settings_embed_model := Settings_embed_model w;
     Settings_llm := Some l;
     fs := fs w; stdout := stdout w; trace := trace w |}.

Definition set_fs (f : gmap (list string) bytes → gmap (list string) bytes)
    (w : World) : World :=
  {| session_state := session_state w;
     Settings_embed_model := Settings_embed_model w;
     Settings_llm := Settings_llm w;
     fs := f (fs w); stdout := stdout w; trace := trace w |}.

Definition add_stdout (line : string) (w : World) : World :=
  {| session_state := session_state w;
     Settings_embed_model := Settings_embed_model w;
     Settings_llm := Settings_llm w;
     fs := fs w; stdout := line :: stdout w; trace := trace w |}.

Definition add_event (ev : Event) (w : World) : World :=
  {| session_state := session_state w;
     Settings_embed_model := Settings_embed_model w;
     Settings_llm := Settings_llm w;
     fs := fs w; stdout := stdout w; trace := ev :: trace w |}.

(** The state when the module has been loaded: [str(uuid4())] came out as
    [uuid], the cache is the empty dictionary. *)
Definition init (uuid : string) (fs0 : gmap (list string) bytes) : World :=
  {| session_state := {| session_id := uuid; file_cache := ∅ |};
     Settings_embed_model := None;
     Settings_llm := None;
     fs := fs0; stdout := []; trace := [] |}.

(** ** The environment *)

(** For each external call, in the world where it is made: the exception
    it raises if it raises, and otherwise the object it returns, for the
    calls whose result the module does not determine. *)
Record Oracle : Type := {
  raises : World → Call → option exn;
  returns_temp_dir : World → string;
  returns_docs : World → Reader → list Document;
  returns_index : World → list Document → VectorStoreIndex;
  returns_engine : World → VectorStoreIndex → bool → list Rerank → QueryEngine;
  returns_response : World → QueryEngine → string → Response;
  returns_text : World → Response → string;
}.

Variable O : Oracle.

(** ** The monad of the handlers: state that survives exceptions *)

Definition M (A : Type) : Type := World → (exn + A) * World.

#[global] Instance M_ret : MRet M := λ A a w, (inr a, w).

#[global] Instance M_bind : MBind M := λ A B f m w,
  match m w with
  | (inl e, w') => (inl e, w')
  | (inr a, w') => f a w'
  end.

Definition raise {A : Type} (e : exn) : M A := λ w, (inl e, w).

(** [try: body except Exception as e: handler e] *)
Definition try_except {A : Type} (body : M A) (handler : exn → M A) : M A := λ w,
  match body w with
  | (inl e, w') => handler e w'
  | (inr a, w') => (inr a, w')
  end.

(** The exit half of a [with] block whose context manager does not
    swallow exceptions: [fin] runs however [body] ended, and an exception
    of [fin] replaces the outcome of [body]. *)
Definition finally {A : Type} (body : M A) (fin : M unit) : M A := λ w,
  match body w with
  | (r, w') =>
      match fin w' with
      | (inl e, w'') => (inl e, w'')
      | (inr _, w'') => (r, w'')
      end
  end.

Definition gets {A : Type} (f : World → A) : M A := λ w, (inr (f w), w).
Definition modify (f : World → World) : M unit := λ w, (inr (), f w).
Definition log (ev : Event) : M unit := modify (add_event ev).

(** [print(line)] *)
Definition print (line : string) : M unit := modify (add_stdout line).

(** An external call: recorded in the trace, raising what the environment
    says it raises, returning [result] otherwise. *)
Definition extcall {A : Type} (c : Call) (result : World → A) : M A := λ w,
  match raises O w c with
  | Some e => (inl e, add_event (EvCall c (Some e)) w)
  | None => (inr (result w), add_event (EvCall c None) w)
  end.

(** [session_state['file_cache'][file_key] = query_engine] *)
Definition cache_put (file_key : string) (query_engine : QueryEngine) : M unit :=
  modify (set_session_state (λ s,
    {| session_id := session_id s;
       file_cache := <[file_key := query_engine]> (file_cache s) |})) ;;
  log (EvCachePut file_key query_engine).

(** ** [setup_llama_index] *)

Definition qa_prompt_tmpl_str : string :=
  "Context information is below." +:+ String "010" ""
  +:+ "---------------------" +:+ String "010" ""
  +:+ "{context_str}" +:+ String "010" ""
  +:+ "---------------------" +:+ String "010" ""
  +:+ "Given the context information above I want you to think step by step to answer the query in a crisp manner, in case you don't know the answer say 'I don't know!'." +:+ String "010" ""
  +:+ "Query: {query_str}" +:+ String "010" ""
  +:+ "Answer: ".

Definition text_qa_template : string := "response_synthesizer:text_qa_template".

(** [sub in s] *)
Definition mentions (s sub : string) : bool :=
  match String.index 0 sub s with
  | Some _ => true
  | None => false
  end.

Definition setup_llama_index (file_path file_key : string) : M QueryEngine :=
  log (EvSetupEnter file_path file_key) ;;
  loader ← extcall
    (SimpleDirectoryReader
       {| input_dir := file_path; required_exts := [".pdf"]; recursive := true |})
    (λ _, {| input_dir := file_path; required_exts := [".pdf"]; recursive := true |});
  docs ← extcall (load_data loader) (λ w, returns_docs O w loader);
  llm ← extcall
    (Cohere {| llm_api_key := API_KEY; llm_model := "command-r-plus" |})
    (λ _, {| llm_api_key := API_KEY; llm_model := "command-r-plus" |});
  embed_model ← extcall
    (CohereEmbedding
       {| cohere_api_key := API_KEY; model_name := "embed-english-v3.0";
          input_type := "search_query" |})
    (λ _, {| cohere_api_key := API_KEY; model_name := "embed-english-v3.0";
             input_type := "search_query" |});
  cohere_rerank ← extcall
    (CohereRerank {| rerank_model := "rerank-english-v3.0"; rerank_api_key := API_KEY |})
    (λ _, {| rerank_model := "rerank-english-v3.0"; rerank_api_key := API_KEY |});
  modify (set_Settings_embed_model embed_model) ;;
  index ← extcall (from_documents docs true) (λ w, returns_index O w docs);
  modify (set_Settings_llm llm) ;;
  query_engine ← extcall (as_query_engine index true [cohere_rerank])
    (λ w, returns_engine O w index true [cohere_rerank]);
  qa_prompt_tmpl ← extcall
    (PromptTemplate {| template := qa_prompt_tmpl_str |})
    (λ _, {| template := qa_prompt_tmpl_str |});
  query_engine ← extcall
    (update_prompts query_engine {[ text_qa_template := qa_prompt_tmpl ]})
    (λ _, set_prompts {[ text_qa_template := qa_prompt_tmpl ]} query_engine);
  cache_put file_key query_engine ;;
  log (EvSetupReturn file_key query_engine) ;;
  mret query_engine.

(** ** [upload_file] *)

(** What removing the temporary directory does to the files: everything
    below the directory goes. *)
Definition rmtree (temp_dir : string) (files : gmap (list string) bytes)
    : gmap (list string) bytes :=
  filter (λ kv, Path.inside (Path.resolve temp_dir) kv.1 = false) files.

(** [with tempfile.TemporaryDirectory() as temp_dir: body] *)
Definition with_TemporaryDirectory {A : Type} (body : string → M A) : M A :=
  temp_dir ← extcall TemporaryDirectory_enter (returns_temp_dir O);
  finally (body temp_dir)
    (extcall (TemporaryDirectory_exit temp_dir) (λ _, ()) ;;
     modify (set_fs (rmtree temp_dir))).

(** [with open(file_path, "wb") as f: f.write(await file.read())]:
    opening creates or truncates the file; the bytes are in the file once
    the write has succeeded (closing is part of the write). *)
Definition write_upload (file_path : string) (file : UploadFile) : M unit :=
  extcall (open_wb file_path) (λ _, ()) ;;
  modify (set_fs (<[Path.resolve file_path := []]>)) ;;
  data ← extcall (file_read file) (λ _, contents file);
  extcall (f_write file_path data) (λ _, ()) ;;
  modify (set_fs (<[Path.resolve file_path := data]>)).

(** The body of the [with tempfile.TemporaryDirectory() as temp_dir] block. *)
Definition upload_in (file : UploadFile) (temp_dir : string) : M json :=
  let file_path := Path.join temp_dir (filename file) in
  write_upload file_path file ;;
  sid ← gets (λ w, session_id (session_state w));
  let file_key := sid +:+ "-" +:+ filename file in
  print file_key ;;
  cache ← gets (λ w, file_cache (session_state w));
  match cache !! file_key with
  | None =>
      query_engine ← setup_llama_index temp_dir file_key;
      cache_put file_key query_engine
  | Some _ => mret ()
  end ;;
  sid ← gets (λ w, session_id (session_state w));
  mret {[ "id" := sid ]}.

(** The [try] block of [upload_file]. *)
Definition upload_file_body (file : UploadFile) : M json :=
  with_TemporaryDirectory (upload_in file).

Definition upload_file (file : UploadFile) : M json :=
  try_except (upload_file_body file)
    (λ e, raise (HTTPException 500 (str e))).

(** ** [query] *)

(** The [try] block of [query].
    [session_state['file_cache'].get(request.file_key)] is [None] or an
    engine; an engine object defines neither [__bool__] nor [__len__], so
    [not query_engine] holds exactly for [None]. *)
Definition query_body (request : QueryRequest) : M json :=
  print (prompt request) ;;
  cache ← gets (λ w, file_cache (session_state w));
  match cache !! file_key request with
  | None => raise (HTTPException 404 "Query engine not found.")
  | Some query_engine =>
      response ← extcall (query_engine_query query_engine (prompt request))
        (λ w, returns_response O w query_engine (prompt request));
      response ← extcall (response_str response) (λ w, returns_text O w response);
      mret {[ "message" := response ]}
  end.

Definition query (request : QueryRequest) : M json :=
  try_except (query_body request)
    (λ e, print (str e) ;; raise (HTTPException 500 (str e))).

(** ** Requests, runs and reachable worlds *)

Inductive Request : Type :=
| Upload (file : UploadFile)
| Query (request : QueryRequest).

Definition handle (req : Request) : M json :=
  match req with
  | Upload file => upload_file file
  | Query request => query request
  end.


(** [later w w']: the process gets from [w] to [w'] by handling requests,
    one after the other. *)
Inductive later (w : World) : World → Prop :=
| later_refl : later w w
| later_step w' req : later w w' → later w (handle req w').2.

(** The worlds the process can be in between two requests. *)
Definition reachable (uuid : string) (fs0 : gmap (list string) bytes) (w : World) : Prop :=
  later (init uuid fs0) w.

(** ** Reading the trace *)

(** The events a run from [w] to [w'] added, newest first. *)
Definition new_events (w w' : World) : list Event :=
  take (length (trace w') - length (trace w)) (trace w').

Definition raised (ev : Event) : option exn :=
  match ev with
  | EvCall _ (Some e) => Some e
  | _ => None
  end.

(** The exception of the most recent call that raised. *)
Fixpoint last_raised (tr : list Event) : option exn :=
  match tr with
  | [] => None
  | ev :: tr' =>
      match raised ev with
      | Some e => Some e
      | None => last_raised tr'
      end
  end.

(** The cache assignments, the engines [setup_llama_index] returned, the
    entries into [setup_llama_index], the queries put to engines and the
    file writes that succeeded, as a trace records them, newest first. *)
Definition cache_puts (tr : list Event) : list (string * QueryEngine) :=
  omap (λ ev, match ev with EvCachePut k qe => Some (k, qe) | _ => None end) tr.

Definition setup_returns (tr : list Event) : list (string * QueryEngine) :=
  omap (λ ev, match ev with EvSetupReturn k qe => Some (k, qe) | _ => None end) tr.

Definition setup_enters (tr : list Event) : list (string * string) :=
  omap (λ ev, match ev with EvSetupEnter p k => Some (p, k) | _ => None end) tr.

Definition query_calls (tr : list Event) : list (QueryEngine * string) :=
  omap (λ ev, match ev with
              | EvCall (query_engine_query qe p) _ => Some (qe, p)
              | _ => None
              end) tr.

Definition file_writes (tr : list Event) : list (string * bytes) :=
  omap (λ ev, match ev with
              | EvCall (f_write p data) None => Some (p, data)
              | _ => None
              end) tr.

Definition is_exit (ev : Event) : bool :=
  match ev with EvCall (TemporaryDirectory_exit _) _ => true | _ => false end.

(** A run from [w] to [w'] added exactly the events [new]. *)
Definition extends (w w' : World) (new : list Event) : Prop :=
  trace w' = new ++ trace w.

(** Two readings of when the cache is written, on a trace (newest event
    first).  [written_after_return]: whenever the cache is assigned,
    [setup_llama_index] has already returned that engine for that key. *)
Fixpoint written_after_return (tr : list Event) : Prop :=
  match tr with
  | [] => True
  | ev :: older =>
      match ev with
      | EvCachePut k qe => (k, qe) ∈ setup_returns older
      | _ => True
      end ∧ written_after_return older
  end.

(** [written_when_built]: an assignment of the cache comes either right
    after [setup_llama_index] returned that engine for that key (the
    assignment of the handler), or right after the [update_prompts] that
    completed the engine succeeded (the assignment inside
    [setup_llama_index]); and [setup_llama_index] returns right after its own
    assignment. *)
Fixpoint written_when_built (tr : list Event) : Prop :=
  match tr with
  | [] => True
  | ev :: older =>
      match ev with
      | EvCachePut k qe =>
          match older with
          | EvSetupReturn k' qe' :: _ => k' = k ∧ qe' = qe
          | EvCall (update_prompts base d) None :: _ => qe = set_prompts d base
          | _ => False
          end
      | EvSetupReturn k qe =>
          match older with
          | EvCachePut k' qe' :: _ => k' = k ∧ qe' = qe
          | _ => False
          end
      | _ => True
      end ∧ written_when_built older
  end.


End App.

(** ** A small instance of the library and of the environment

    Documents are strings, an index is the list of its documents, an engine
    is an index with its prompts, a response is a string.  In the
    environment [quiet] no call raises; [failing c e] raises [e] at the
    calls for which [c] holds. *)

Module Toy.

Record Engine : Type := {
  engine_index : list string;
  engine_prompts : gmap string Prompt;
}.

#[local] Obligation Tactic := idtac.

#[global, program] Instance lib : LlamaIndex := {|
  Document := string;
  VectorStoreIndex := list string;
  QueryEngine := Engine;
  Response := string;
  get_prompts := engine_prompts;
  set_prompts := λ d qe,
    {| engine_index := engine_index qe; engine_prompts := d ∪ engine_prompts qe |};
|}.
Next Obligation.
  intros d qe k t Hk. simpl. apply lookup_union_Some_l. exact Hk.
Qed.

Definition default_prompts : gmap string Prompt :=
  {[ text_qa_template := {| template := "default" |} ]}.

Definition failing (c : Call → bool) (e : exn) : Oracle := {|
  raises := λ _ call, if c call then Some e else None;
  returns_temp_dir := λ _, "/tmp/tmpk3v9x2";
  returns_docs := λ _ _, ["page one"];
  returns_index := λ _ docs, docs;
  returns_engine := λ _ index _ _,
    {| engine_index := index; engine_prompts := default_prompts |};
  returns_response := λ _ _ prompt, "answer to " +:+ prompt;
  returns_text := λ _ response, response;
|}.

Definition quiet : Oracle := failing (λ _, false) (Exception "").

Definition key : option string := Some "k".

Definition w0 : World := init "S" ∅.

Definition report : UploadFile :=
  {| filename := "report.pdf"; contents := [x25; x50; x44; x46] |}.

(** The scenario: [report.pdf] is uploaded, a question is asked about it,
    and a second file of the same name is uploaded. *)
Definition w1 : World := (upload_file key quiet report w0).2.

Definition ask : QueryRequest :=
  {| prompt := "What is the total?"; file_key := "S-report.pdf" |}.

Definition w2 : World := (query quiet ask w1).2.

Definition report_again : UploadFile :=
  {| filename := "report.pdf"; contents := [x25; x50] |}.

Definition w3 : World := (upload_file key quiet report_again w2).2.

Definition id_S : gmap string string := {[ "id" := "S" ]}.

Definition engine1 : Engine :=
  {| engine_index := ["page one"];
     engine_prompts :=
       {[ text_qa_template := {| template := qa_prompt_tmpl_str |} ]} ∪ default_prompts |}.

(** A query for a file that was never uploaded. *)
Definition ask_missing : QueryRequest :=
  {| prompt := "What is the total?"; file_key := "S-missing.pdf" |}.

(** An environment in which the reader finds no file. *)
Definition no_files : Oracle :=
  failing (λ c, match c with SimpleDirectoryReader _ => true | _ => false end)
    (Exception "No files found in /tmp/tmpk3v9x2.").

(** An upload whose name leaves the temporary directory. *)
Definition escaping : UploadFile :=
  {| filename := "../x.pdf"; contents := [x25; x50; x44; x46] |}.

(** An upload under an absolute name. *)
Definition absolute : UploadFile :=
  {| filename := "/srv/x.pdf"; contents := [x25; x50; x44; x46] |}.

(** An environment in which the temporary directory cannot be removed. *)
Definition stuck_exit : Oracle :=
  failing (λ c, match c with TemporaryDirectory_exit _ => true | _ => false end)
    (Exception "[Errno 39] Directory not empty: '/tmp/tmpk3v9x2'").


End Toy.

(** * Properties *)

(** ** Paths *)

Module PathFacts.
Import Path.

Lemma split_nonempty s : split s ≠ [].
Proof.
  destruct s as [|c s]; simpl; [done|].
  case_bool_decide; [done|]. by destruct (split s).
Qed.

(** Splitting distributes over a separator in the middle. *)
Lemma split_app_sep a b : split (a +:+ "/" +:+ b) = split a ++ split b.
Proof.
  induction a as [|c a IH]; simpl.
  - done.
  - rewrite IH. case_bool_decide; [done|].
    pose proof (split_nonempty a) as Hne.
    destruct (split a); [done|]. done.
Qed.

Lemma fold_walk_app l1 l2 cur :
  fold_left walk (l1 ++ l2) cur = fold_left walk l2 (fold_left walk l1 cur).
Proof. apply fold_left_app. Qed.

(** A path ending in a separator is its front, a separator, and nothing. *)
Lemma endswith_sep_inv a : endswith_sep a = true → ∃ a', a = a' +:+ "/" +:+ "".
Proof.
  induction a as [|c a IH]; simpl; [done|].
  destruct a as [|c' a].
  - case_bool_decide; [|done]. subst c. intros _. by exists "".
  - intros Ha. destruct (IH Ha) as [a' Ha']. exists (String c a'). simpl. by rewrite Ha'.
Qed.

Lemma string_app_cons c (a b : string) : String c a +:+ b = String c (a +:+ b).
Proof. reflexivity. Qed.

Lemma string_app_assoc (a b c : string) : (a +:+ b) +:+ c = a +:+ b +:+ c.
Proof.
  induction a as [|x a IH]; [reflexivity|].
  rewrite !string_app_cons. by rewrite IH.
Qed.

(** A relative name is walked from where the first path ends. *)
Lemma resolve_join_relative a b :
  startswith_sep b = false →
  resolve (join a b) = fold_left walk (split b) (resolve a).
Proof.
  intros Hb. unfold join, resolve. rewrite Hb.
  case_bool_decide as Ha; simpl.
  - by subst a.
  - destruct (endswith_sep a) eqn:Hend.
    + destruct (endswith_sep_inv a Hend) as [a' ->].
      rewrite string_app_assoc. simpl.
      rewrite !split_app_sep, !fold_walk_app. done.
    + by rewrite split_app_sep, fold_walk_app.
Qed.

(** An absolute name forgets the first path. *)
Lemma resolve_join_absolute a b :
  startswith_sep b = true → resolve (join a b) = resolve b.
Proof. intros Hb. unfold join. by rewrite Hb. Qed.

(** Where [../x.pdf] leads from a directory. *)
Lemma resolve_join_dotdot a :
  resolve (join a "../x.pdf") = removelast (resolve a) ++ ["x.pdf"].
Proof. by rewrite resolve_join_relative. Qed.

Lemma length_removelast {A} (l : list A) : l ≠ [] → S (length (removelast l)) = length l.
Proof.
  intros Hl. destruct (exists_last Hl) as (l' & x & ->).
  rewrite removelast_last, length_app. simpl. lia.
Qed.

(** A sibling of a directory is not below it. *)
Lemma sibling_outside (d : list string) (name : string) :
  d ≠ [] → inside d (removelast d ++ [name]) = false.
Proof.
  intros Hd. unfold inside.
  case_bool_decide as Hp; [|done]. simpl.
  case_bool_decide as He; [done|]. exfalso. apply He.
  apply prefix_length_eq; [done|].
  rewrite length_app. simpl. pose proof (length_removelast d Hd). lia.
Qed.

Lemma split_plain name : has_sep name = false → split name = [name].
Proof.
  induction name as [|c name IH]; simpl; [done|].
  intros [Hc Hname]%orb_false_iff. rewrite Hc, (IH Hname). done.
Qed.

(** A plain name leads to the entry of that name in the directory. *)
Lemma resolve_join_plain a name :
  plain name = true → resolve (join a name) = resolve a ++ [name].
Proof.
  unfold plain. rewrite !andb_true_iff, !negb_true_iff.
  intros [[[Hsep Hempty] Hdot] Hdotdot].
  rewrite resolve_join_relative.
  - rewrite (split_plain name Hsep). simpl. unfold walk.
    by rewrite Hempty, Hdot, Hdotdot.
  - destruct name as [|c name]; [done|]. simpl in *.
    by apply orb_false_iff in Hsep as [-> _].
Qed.

(** An entry of a directory is below it. *)
Lemma child_inside (d : list string) (name : string) : inside d (d ++ [name]) = true.
Proof.
  unfold inside. apply andb_true_iff. split.
  - apply bool_decide_eq_true. by apply prefix_app_r.
  - apply negb_true_iff, bool_decide_eq_false. intros Heq.
    apply (f_equal length) in Heq. rewrite length_app in Heq. simpl in Heq. lia.
Qed.

End PathFacts.

(** ** Running the monad *)

Section Facts.

Context `{LlamaIndex} (API_KEY : option string) (O : Oracle).

Lemma bind_run {A B : Type} (m : M A) (f : A → M B) w r w' :
  (m ≫= f) w = (r, w') →
  (∃ e, m w = (inl e, w') ∧ r = inl e) ∨
  (∃ a w1, m w = (inr a, w1) ∧ f a w1 = (r, w')).
Proof.
  unfold mbind, M_bind. destruct (m w) as [[e|a] w1]; intros Hr.
  - left. exists e. by simplify_eq.
  - right. by exists a, w1.
Qed.

Lemma extcall_run {A : Type} (c : Call) (result : World → A) w r w' :
  extcall O c result w = (r, w') →
  (∃ e, raises O w c = Some e ∧ r = inl e ∧ w' = add_event (EvCall c (Some e)) w) ∨
  (raises O w c = None ∧ r = inr (result w) ∧ w' = add_event (EvCall c None) w).
Proof.
  unfold extcall. destruct (raises O w c) as [e|]; intros Hr; simplify_eq.
  - left. by exists e.
  - by right.
Qed.

Lemma try_except_run {A : Type} (body : M A) (handler : exn → M A) w r w' :
  try_except body handler w = (r, w') →
  (∃ e w1, body w = (inl e, w1) ∧ handler e w1 = (r, w')) ∨
  (∃ a, body w = (inr a, w') ∧ r = inr a).
Proof.
  unfold try_except. destruct (body w) as [[e|a] w1]; intros Hr.
  - left. by exists e, w1.
  - right. exists a. by simplify_eq.
Qed.

Lemma finally_run {A : Type} (body : M A) (fin : M unit) w r w' :
  finally body fin w = (r, w') →
  ∃ r1 w1, body w = (r1, w1) ∧
    ((∃ e, fin w1 = (inl e, w') ∧ r = inl e) ∨ (fin w1 = (inr (), w') ∧ r = r1)).
Proof.
  unfold finally. destruct (body w) as [r1 w1]. exists r1, w1. split; [done|].
  destruct (fin w1) as [[e|[]] w2]; simplify_eq; [left; by exists e | by right].
Qed.

(** Inversion of a run, one monadic step after the other. *)
Ltac inv_run H :=
  cbv beta zeta in H;
  lazymatch type of H with
  | mbind _ _ _ = _ =>
      let Hm := fresh "Hm" in
      apply bind_run in H as [(? & Hm & ?) | (? & ? & Hm & H)];
      [ inv_run Hm | inv_run Hm; inv_run H ]
  | extcall _ _ _ _ = _ =>
      apply extcall_run in H as [(? & ? & ? & ?) | (? & ? & ?)]; simplify_eq
  | mret _ _ = _ => unfold mret, M_ret in H; simplify_eq
  | gets _ _ = _ => unfold gets in H; simplify_eq
  | modify _ _ = _ => unfold modify in H; simplify_eq
  | log _ _ = _ => unfold log, modify in H; simplify_eq
  | print _ _ = _ => unfold print, modify in H; simplify_eq
  | raise _ _ = _ => unfold raise in H; simplify_eq
  | cache_put _ _ _ = _ => unfold cache_put in H; inv_run H
  | write_upload _ _ _ _ = _ => unfold write_upload in H; inv_run H
  | match ?x with _ => _ end _ = _ => destruct x eqn:?; inv_run H
  | _ => simplify_eq
  end.

Lemma ext_nil (t : list Event) : t = [] ++ t.
Proof. done. Qed.
Lemma ext_cons (e : Event) l n t : l = n ++ t → e :: l = (e :: n) ++ t.
Proof. by intros ->. Qed.
Lemma ext_app (m : list Event) l n t : l = n ++ t → m ++ l = (m ++ n) ++ t.
Proof. intros ->. apply app_assoc. Qed.
Ltac solve_ext :=
  unfold extends in *; simpl;
  repeat match goal with Hx : trace _ = _ ++ _ |- _ => rewrite Hx; clear Hx end;
  simpl; repeat (apply ext_cons || apply ext_app); apply ext_nil.

Lemma last_raised_app (l1 l2 : list Event) :
  last_raised (l1 ++ l2) = match last_raised l1 with Some e => Some e | None => last_raised l2 end.
Proof. induction l1 as [|ev l1 IH]; simpl; [done|]. by destruct (raised ev). Qed.

Lemma cache_puts_app (l1 l2 : list Event) : cache_puts (l1 ++ l2) = cache_puts l1 ++ cache_puts l2.
Proof. apply omap_app. Qed.
Lemma setup_returns_app (l1 l2 : list Event) : setup_returns (l1 ++ l2) = setup_returns l1 ++ setup_returns l2.
Proof. apply omap_app. Qed.
Lemma setup_enters_app (l1 l2 : list Event) : setup_enters (l1 ++ l2) = setup_enters l1 ++ setup_enters l2.
Proof. apply omap_app. Qed.
Lemma query_calls_app (l1 l2 : list Event) : query_calls (l1 ++ l2) = query_calls l1 ++ query_calls l2.
Proof. apply omap_app. Qed.
Lemma file_writes_app (l1 l2 : list Event) : file_writes (l1 ++ l2) = file_writes l1 ++ file_writes l2.
Proof. apply omap_app. Qed.
Ltac trace_simpl :=
  simpl;
  repeat (progress (rewrite ?last_raised_app, ?cache_puts_app, ?setup_returns_app,
                      ?setup_enters_app, ?query_calls_app, ?file_writes_app; simpl)).

Lemma setup_run file_path file_key w r w' :
  setup_llama_index API_KEY O file_path file_key w = (r, w') →
  session_id (session_state w') = session_id (session_state w) ∧
  fs w' = fs w ∧ stdout w' = stdout w ∧
  ∃ new, extends w w' new ∧
    setup_enters new = [(file_path, file_key)] ∧ query_calls new = [] ∧
    file_writes new = [] ∧
    match r with
    | inr qe =>
        last_raised new = None ∧
        cache_puts new = [(file_key, qe)] ∧ setup_returns new = [(file_key, qe)] ∧
        file_cache (session_state w') = <[file_key := qe]> (file_cache (session_state w)) ∧
        get_prompts qe !! text_qa_template = Some {| template := qa_prompt_tmpl_str |} ∧
        ∃ w1 index,
          qe = set_prompts {[ text_qa_template := {| template := qa_prompt_tmpl_str |} ]}
                 (returns_engine O w1 index true
                    [{| rerank_model := "rerank-english-v3.0"; rerank_api_key := API_KEY |}])
    | inl e =>
        (∃ c rest, new = EvCall c (Some e) :: rest ∧ last_raised rest = None) ∧
        cache_puts new = [] ∧ setup_returns new = [] ∧
        session_state w' = session_state w
    end.
Proof.
  intros Hrun. unfold setup_llama_index in Hrun.
  inv_run Hrun.
  all: simpl; split_and?; try done.
  all: eexists; split; [solve_ext|]; simpl; split_and?; try done.
  all: try (eexists _, _; split; [reflexivity|done]).
  - apply get_set_prompts. apply lookup_singleton_eq.
  - by eexists _, _.
Qed.

Lemma upload_in_run file temp_dir w r w' :
  upload_in API_KEY O file temp_dir w = (r, w') →
  let sid := session_id (session_state w) in
  let key := sid +:+ "-" +:+ filename file in
  let path := Path.join temp_dir (filename file) in
  session_id (session_state w') = sid ∧
  ∃ new, extends w w' new ∧ query_calls new = [] ∧
    match r with
    | inr body => body = {[ "id" := sid ]} ∧ last_raised new = None
    | inl e => ∃ c rest, new = EvCall c (Some e) :: rest ∧ last_raised rest = None
    end ∧
    (file_writes new = [] ∨
     file_writes new = [(path, contents file)] ∧
     fs w' !! Path.resolve path = Some (contents file)) ∧
    match file_cache (session_state w) !! key with
    | Some _ =>
        session_state w' = session_state w ∧
        setup_enters new = [] ∧ cache_puts new = [] ∧ setup_returns new = []
    | None =>
        (∃ qe wa wb,
            setup_llama_index API_KEY O temp_dir key wa = (inr qe, wb) ∧
            session_state wa = session_state w ∧
            file_cache (session_state wb) = <[key := qe]> (file_cache (session_state w)) ∧
            file_cache (session_state w') = file_cache (session_state wb) ∧
            get_prompts qe !! text_qa_template = Some {| template := qa_prompt_tmpl_str |} ∧
            setup_enters new = [(temp_dir, key)] ∧
            setup_returns new = [(key, qe)] ∧
            cache_puts new = [(key, qe); (key, qe)] ∧
            r = inr {[ "id" := sid ]}) ∨
        (session_state w' = session_state w ∧
         (length (setup_enters new) ≤ 1)%nat ∧ cache_puts new = [] ∧ setup_returns new = [] ∧
         ∃ e, r = inl e)
    end.
Proof.
  intros Hrun sid key path. unfold upload_in in Hrun.
  inv_run Hrun.
  all: simpl in *.
  all: subst sid key path.
  all: try match goal with
    | Hs : setup_llama_index _ _ _ _ _ = _ |- _ =>
        pose proof (setup_run _ _ _ _ _ Hs) as (Hsid & Hfs & Hout & new & Hext & Hen & Hq & Hw & Hr);
        simpl in *
    end.
  all: repeat match goal with Hc : file_cache _ !! _ = _ |- _ => rewrite Hc end.
  1-3: split; [done|]; eexists; split; [solve_ext|]; simpl;
       (split_and?; try done; try (eexists _, _; split; [reflexivity|done]));
       [by left
       |case_match; [done|right; split_and?; simpl; eauto]].
  - (* the index builder raised *)
    destruct Hr as ((c & rest & Hnew & Hrest) & Hputs & Hrets & Hss).
    split; [done|]. eexists; split; [solve_ext|].
    trace_simpl. rewrite ?Hq, ?Hw, ?Hputs, ?Hrets, ?Hen. simpl.
    split_and?; try done.
    + eexists c, _. rewrite Hnew. split; [reflexivity|]. trace_simpl. by rewrite Hrest.
    + right. split; [done|]. rewrite Hfs. apply lookup_insert_eq.
    + right. split_and?; eauto.
  - (* the key was already cached *)
    split; [done|]. eexists; split; [solve_ext|]. simpl.
    split_and?; try done.
    right. split; [done|]. apply lookup_insert_eq.
  - (* the index builder returned an engine *)
    destruct Hr as (Hnone & Hputs & Hrets & Hcache & Hprompt & _).
    split; [done|]. eexists; split; [solve_ext|].
    trace_simpl. rewrite ?Hq, ?Hw, ?Hputs, ?Hrets, ?Hen, ?Hnone. simpl.
    split_and?; try done.
    + by rewrite Hsid.
    + right. split; [done|]. rewrite Hfs. apply lookup_insert_eq.
    + left. eexists _, _, _. split; [exact Hm0|]. simpl. split_and?; try done.
      * rewrite Hcache. simpl. apply insert_insert_eq.
      * by rewrite Hsid.
Qed.

Lemma upload_file_run file w r w' :
  upload_file API_KEY O file w = (r, w') →
  let sid := session_id (session_state w) in
  let key := sid +:+ "-" +:+ filename file in
  let temp_dir := returns_temp_dir O w in
  let path := Path.join temp_dir (filename file) in
  session_id (session_state w') = sid ∧
  ∃ new, extends w w' new ∧ query_calls new = [] ∧
    match last_raised new with
    | Some e => r = inl (HTTPException 500 (str e))
    | None => r = inr {[ "id" := sid ]}
    end ∧
    (∃ fin body, new = fin ++ body ∧
       (fin = [] ∨ ∃ x, fin = [EvCall (TemporaryDirectory_exit temp_dir) x]) ∧
       (last_raised body = None ∨
        ∃ c e rest, body = EvCall c (Some e) :: rest ∧ last_raised rest = None)) ∧
    (file_writes new = [] ∨
     file_writes new = [(path, contents file)] ∧
     (Path.inside (Path.resolve temp_dir) (Path.resolve path) = false →
      fs w' !! Path.resolve path = Some (contents file))) ∧
    match file_cache (session_state w) !! key with
    | Some _ =>
        session_state w' = session_state w ∧
        setup_enters new = [] ∧ cache_puts new = [] ∧ setup_returns new = []
    | None =>
        (∃ qe wa wb,
            setup_llama_index API_KEY O temp_dir key wa = (inr qe, wb) ∧
            session_state wa = session_state w ∧
            file_cache (session_state wb) = <[key := qe]> (file_cache (session_state w)) ∧
            file_cache (session_state w') = file_cache (session_state wb) ∧
            get_prompts qe !! text_qa_template = Some {| template := qa_prompt_tmpl_str |} ∧
            setup_enters new = [(temp_dir, key)] ∧
            setup_returns new = [(key, qe)] ∧
            cache_puts new = [(key, qe); (key, qe)]) ∨
        (session_state w' = session_state w ∧
         (length (setup_enters new) ≤ 1)%nat ∧ cache_puts new = [] ∧ setup_returns new = [] ∧
         ∃ e, r = inl e)
    end.
Proof.
  intros Hrun sid key temp_dir path.
  assert (∃ r0 w0, upload_file_body API_KEY O file w = (r0, w0) ∧
            w' = w0 ∧ r = match r0 with inl e => inl (HTTPException 500 (str e)) | inr b => inr b end)
    as (r0 & w0 & Hbody & -> & ->).
  { apply try_except_run in Hrun as [(e & w1 & Hb & Hh)|(a & Hb & ->)].
    - unfold raise in Hh. simplify_eq. by eexists _, _.
    - by eexists _, _. }
  clear Hrun. unfold upload_file_body, with_TemporaryDirectory in Hbody.
  apply bind_run in Hbody as [(e & Henter & ->)|(td & w1 & Henter & Hfin)].
  { (* no temporary directory *)
    inv_run Henter. split; [done|]. eexists; split; [solve_ext|]. simpl.
    split_and?; try done.
    - eexists [], _. split; [reflexivity|]. split; [by left|]. right. by eexists _, _, _.
    - by left.
    - case_match; [done|]. right. split_and?; simpl; eauto. }
  inv_run Henter. fold temp_dir in Hfin.
  apply finally_run in Hfin as (r1 & w2 & Hin & Hexit).
  apply upload_in_run in Hin. simpl in Hin. fold sid key path in Hin.
  destruct Hin as (Hsid & new & Hext & Hq & Hres & Hfiles & Hcache).
  assert (last_raised new = match r1 with inl e => Some e | inr _ => None end
          ∧ (last_raised new = None
             ∨ ∃ c e rest, new = EvCall c (Some e) :: rest ∧ last_raised rest = None))
    as [Hlast Hshape].
  { destruct r1 as [e1|b1].
    - destruct Hres as (c & rest & -> & Hrest). split; [done|]. right. by eexists _, _, _.
    - destruct Hres as [_ Hnone]. split; [done|]. by left. }
  assert (∀ x, ∃ fin body : list Event,
            EvCall (TemporaryDirectory_exit temp_dir) x
              :: new ++ [EvCall TemporaryDirectory_enter None] = fin ++ body
            ∧ (fin = [] ∨ ∃ x, fin = [EvCall (TemporaryDirectory_exit temp_dir) x])
            ∧ (last_raised body = None
               ∨ ∃ c e rest, body = EvCall c (Some e) :: rest ∧ last_raised rest = None))
    as Hfin.
  { intros x. eexists [_], _. split; [reflexivity|]. split; [right; by eexists|].
    destruct Hshape as [Hnone|(c & e & rest & -> & Hrest)].
    - left. trace_simpl. by rewrite Hnone.
    - right. eexists c, e, _. split; [reflexivity|]. trace_simpl. by rewrite Hrest. }
  destruct Hexit as [(e & Hexit & ->)|(Hexit & ->)]; inv_run Hexit; simpl.
  - (* removing the directory raised *)
    split; [done|]. eexists; split; [solve_ext|]. trace_simpl.
    rewrite ?Hq. split_and?; try done.
    + destruct Hfiles as [->|[-> Hfs]]; [by left|right]. split; [done|]. by intros _.
    + destruct (file_cache (session_state w) !! key).
      * destruct Hcache as (? & -> & -> & ->). done.
      * destruct Hcache as [(qe & wa & wb & ? & ? & ? & ? & ? & -> & -> & -> & ?)
                           |(? & ? & -> & -> & ?)].
        -- left. by eexists qe, wa, wb.
        -- right. split_and?; try done; eauto. by rewrite app_nil_r.
  - (* the directory was removed *)
    split; [done|]. eexists; split; [solve_ext|]. trace_simpl.
    rewrite ?Hq, Hlast. split_and?; try done.
    + destruct r1 as [e1|b1]; [done|]. by destruct Hres as [-> _].
    + destruct Hfiles as [->|[-> Hfs]]; [by left|right]. split; [done|].
      intros Hout. unfold rmtree. apply map_lookup_filter_Some. done.
    + destruct (file_cache (session_state w) !! key).
      * destruct Hcache as (? & -> & -> & ->). done.
      * destruct Hcache as [(qe & wa & wb & ? & ? & ? & ? & ? & -> & -> & -> & ?)
                           |(? & ? & -> & -> & e & ->)].
        -- left. by eexists qe, wa, wb.
        -- right. split_and?; try done; eauto. by rewrite app_nil_r.
Qed.

Lemma query_run request w r w' :
  query O request w = (r, w') →
  session_state w' = session_state w ∧ fs w' = fs w ∧
  ∃ new, extends w w' new ∧
    setup_enters new = [] ∧ cache_puts new = [] ∧ setup_returns new = [] ∧
    file_writes new = [] ∧
    match file_cache (session_state w) !! file_key request with
    | None =>
        new = [] ∧
        r = inl (HTTPException 500 (str (HTTPException 404 "Query engine not found.")))
    | Some qe =>
        query_calls new = [(qe, prompt request)] ∧
        match last_raised new with
        | Some e =>
            r = inl (HTTPException 500 (str e)) ∧
            ∃ c rest, new = EvCall c (Some e) :: rest ∧ last_raised rest = None
        | None => ∃ text, r = inr {[ "message" := text ]}
        end
    end.
Proof.
  intros Hrun. unfold query in Hrun.
  apply try_except_run in Hrun as [(e & w1 & Hbody & Hh)|(a & Hbody & ->)];
    unfold query_body in Hbody; inv_run Hbody; try inv_run Hh; simpl.
  all: split; [done|]; split; [done|]; eexists; (split; [solve_ext|]); simpl.
  all: simpl in *; match goal with Hc : file_cache _ !! _ = _ |- _ => rewrite Hc end.
  all: split_and?; try done; eauto.
Qed.

(** ** The events of a run *)

Lemma new_events_extends w w' new : extends w w' new → new_events w w' = new.
Proof.
  unfold extends, new_events. intros ->.
  rewrite length_app, Nat.add_sub. apply take_app_length.
Qed.



(** ** What one request does to the shared state *)

(** A request either leaves [session_state] alone and assigns nothing, or
    it is an upload that found its key absent, built one engine and
    assigned it to that key. *)
Lemma handle_step req w :
  let w' := (handle API_KEY O req w).2 in
  session_id (session_state w') = session_id (session_state w) ∧
  ∃ new, extends w w' new ∧
    ((session_state w' = session_state w ∧ cache_puts new = [] ∧ setup_returns new = []) ∨
     (∃ key qe,
        file_cache (session_state w) !! key = None ∧
        file_cache (session_state w') = <[key := qe]> (file_cache (session_state w)) ∧
        get_prompts qe !! text_qa_template = Some {| template := qa_prompt_tmpl_str |} ∧
        setup_returns new = [(key, qe)] ∧
        cache_puts new = [(key, qe); (key, qe)])).
Proof.
  destruct (handle API_KEY O req w) as [r w'] eqn:Hrun. simpl.
  destruct req as [file|request]; simpl in Hrun.
  - apply upload_file_run in Hrun. simpl in Hrun.
    destruct Hrun as (Hsid & new & Hext & _ & _ & _ & _ & Hcache).
    split; [done|]. exists new. split; [done|].
    destruct (file_cache (session_state w) !! _) eqn:Hkey.
    + left. by destruct Hcache as (? & ? & ? & ?).
    + destruct Hcache as [(qe & wa & wb & _ & _ & Hb & Hw' & Hp & _ & Hr & Hputs)
                         |(? & _ & ? & ? & _)]; [right|by left].
      eexists _, qe. rewrite Hw', Hb. done.
  - apply query_run in Hrun as (Hss & _ & new & Hext & _ & Hputs & Hrets & _).
    split; [by rewrite Hss|]. exists new. split; [done|]. by left.
Qed.

Lemma later_session_id w w' :
  later API_KEY O w w' → session_id (session_state w') = session_id (session_state w).
Proof.
  induction 1 as [|w' req _ IH]; [done|].
  destruct (handle_step req w') as [Hsid _]. by rewrite Hsid.
Qed.

(** Entries are never removed and never replaced. *)
Lemma later_cache_entry w w' k qe :
  later API_KEY O w w' →
  file_cache (session_state w) !! k = Some qe →
  file_cache (session_state w') !! k = Some qe.
Proof.
  induction 1 as [|w' req _ IH]; [done|]. intros Hk. specialize (IH Hk).
  destruct (handle_step req w') as (_ & new & _ & [(Hss & _)|(key & qe' & Hnone & Hins & _)]).
  - by rewrite Hss.
  - rewrite Hins. rewrite lookup_insert_ne; [done|]. congruence.
Qed.

(** The entries of the cache against the trace: the engine under a key is
    the one engine that [setup_llama_index] ever returned for the key, it
    carries the module's prompt, and every assignment to the key stored it;
    a key without an entry was never built and never assigned. *)
Lemma cache_invariant uuid fs0 w :
  reachable API_KEY O uuid fs0 w →
  ∀ k,
    match file_cache (session_state w) !! k with
    | Some qe =>
        get_prompts qe !! text_qa_template = Some {| template := qa_prompt_tmpl_str |} ∧
        filter (λ p, p.1 = k) (setup_returns (trace w)) = [(k, qe)] ∧
        Forall (λ p, p = (k, qe)) (filter (λ p, p.1 = k) (cache_puts (trace w)))
    | None =>
        filter (λ p, p.1 = k) (setup_returns (trace w)) = [] ∧
        filter (λ p, p.1 = k) (cache_puts (trace w)) = []
    end.
Proof.
  unfold reachable. induction 1 as [|w req _ IH]; intros k.
  { simpl. by rewrite lookup_empty. }
  specialize (IH k).
  destruct (handle_step req w)
    as (_ & new & Hext & [(Hss & Hputs & Hrets)|(key & qe & Hnone & Hins & Hp & Hrets & Hputs)]);
    unfold extends in Hext; rewrite Hext, setup_returns_app, cache_puts_app, Hputs, Hrets.
  - by rewrite Hss.
  - rewrite Hins. destruct (decide (key = k)) as [->|Hne].
    + rewrite lookup_insert_eq. rewrite Hnone in IH. destruct IH as [IHr IHp].
      rewrite !filter_app, IHr, IHp.
      rewrite !filter_cons_True by done. rewrite !filter_nil. simpl.
      split_and?; [done|done|]. by repeat constructor.
    + rewrite lookup_insert_ne by done.
      rewrite !filter_app, !filter_cons_False by (simpl; congruence).
      by rewrite !filter_nil.
Qed.

(** ** The query handler *)

(** C1 (the code departs from the claim).  The claim asks for status 404
    with detail "Query engine not found." when the [file_key] of a query has
    no cache entry.  The handler raises that [HTTPException] inside its [try]
    block, its own [except Exception] catches it, and the handler answers
    with status 500 and the detail "404: Query engine not found.". *)
Theorem query_unknown_key_responds_500 request w :
  file_cache (session_state w) !! file_key request = None →
  (query O request w).1 = inl (HTTPException 500 "404: Query engine not found.") ∧
  http_response (query O request w).1
    = (500, {[ "detail" := "404: Query engine not found." ]}).
Proof.
  intros Hkey.
  assert ((query O request w).1 = inl (HTTPException 500 "404: Query engine not found."))
    as Hq.
  { unfold query, try_except, query_body, print, modify, gets, raise, mbind, M_bind.
    simpl. by rewrite Hkey. }
  split; [done|]. by rewrite Hq.
Qed.

(** C9.  The query handler never modifies the shared state: whatever the
    request and however the handler ends (an answer, the missing-key error,
    an error of the engine), [session_state], that is the session identifier
    and every cache entry, is the same after the run as before. *)
Theorem query_preserves_session_state request w :
  session_state (query O request w).2 = session_state w.
Proof.
  destruct (query O request w) as [r w'] eqn:Hrun.
  by apply query_run in Hrun as [Hss _].
Qed.

(** ** Errors *)


(** ** The index builder *)

(** C6.  When [setup_llama_index] returns, the engine it returns is the
    engine [as_query_engine] gave (streaming, with the reranker as the one
    postprocessor) with its answer-synthesis prompt replaced by the module's
    fixed template, which asks to think step by step and to say
    'I don't know!'; and the same engine is in the cache under the given
    key. *)
Theorem setup_llama_index_builds_and_caches file_path file_key w qe w' :
  setup_llama_index API_KEY O file_path file_key w = (inr qe, w') →
  get_prompts qe !! text_qa_template = Some {| template := qa_prompt_tmpl_str |} ∧
  mentions qa_prompt_tmpl_str "think step by step" = true ∧
  mentions qa_prompt_tmpl_str "say 'I don't know!'" = true ∧
  (∃ w1 index,
     qe = set_prompts {[ text_qa_template := {| template := qa_prompt_tmpl_str |} ]}
            (returns_engine O w1 index true
               [{| rerank_model := "rerank-english-v3.0"; rerank_api_key := API_KEY |}])) ∧
  file_cache (session_state w') = <[file_key := qe]> (file_cache (session_state w)) ∧
  file_cache (session_state w') !! file_key = Some qe.
Proof.
  intros Hrun. apply setup_run in Hrun.
  destruct Hrun as (_ & _ & _ & new & _ & _ & _ & _ & _ & _ & _ & Hcache & Hprompt & Hready).
  split_and?; try done.
  rewrite Hcache. apply lookup_insert_eq.
Qed.

(** ** The upload handler and the cache *)

(** C5.  The cache key of an upload is the session identifier, a hyphen
    and the file name.  After a successful upload every cache assignment of
    the run was made under that key, no other key changed, the key has an
    engine, and a query with that key is put to that engine: it is answered
    with the engine's text unless a call of the engine raises. *)
Theorem upload_key_is_session_dash_filename file w body w' :
  upload_file API_KEY O file w = (inr body, w') →
  let key := session_id (session_state w) +:+ "-" +:+ filename file in
  Forall (λ p, p.1 = key) (cache_puts (new_events w w')) ∧
  (∀ k, k ≠ key → file_cache (session_state w') !! k = file_cache (session_state w) !! k) ∧
  ∃ qe, file_cache (session_state w') !! key = Some qe ∧
    ∀ p r w'', query O {| prompt := p; file_key := key |} w' = (r, w'') →
      query_calls (new_events w' w'') = [(qe, p)] ∧
      match last_raised (new_events w' w'') with
      | Some e => r = inl (HTTPException 500 (str e))
      | None => ∃ text, r = inr {[ "message" := text ]}
      end.
Proof.
  intros Hrun key. apply upload_file_run in Hrun. simpl in Hrun. fold key in Hrun.
  destruct Hrun as (_ & new & Hext & _ & _ & _ & _ & Hcache).
  rewrite (new_events_extends _ _ _ Hext).
  assert (Forall (λ p, p.1 = key) (cache_puts new) ∧
          (∀ k, k ≠ key →
             file_cache (session_state w') !! k = file_cache (session_state w) !! k) ∧
          ∃ qe, file_cache (session_state w') !! key = Some qe)
    as (Hputs & Hother & qe & Hqe).
  { destruct (file_cache (session_state w) !! key) as [qe0|] eqn:Hkey.
    - destruct Hcache as (Hss & _ & -> & _). rewrite Hss. split_and?; [done|done|by exists qe0].
    - destruct Hcache as [(qe & wa & wb & _ & _ & Hb & Hw' & _ & _ & _ & ->)
                         |(_ & _ & _ & _ & e & ?)]; [|done].
      rewrite Hw', Hb. split_and?.
      + by repeat constructor.
      + intros k Hk. by rewrite lookup_insert_ne.
      + exists qe. apply lookup_insert_eq. }
  split_and?; [done|done|]. exists qe. split; [done|].
  intros p r w'' Hq. apply query_run in Hq. simpl in Hq.
  destruct Hq as (_ & _ & newq & Hextq & _ & _ & _ & _ & Hres).
  rewrite (new_events_extends _ _ _ Hextq). rewrite Hqe in Hres.
  destruct Hres as [Hcalls Hres]. split; [done|].
  destruct (last_raised newq); [by destruct Hres|done].
Qed.

(** C10.  An upload that finds its key absent and succeeds assigns the
    cache entry of the key twice, first inside [setup_llama_index] and then
    in the handler, both times with the engine the builder returned: the
    second assignment changes nothing, and the cache at the end is the cache
    as the first assignment left it. *)
Theorem miss_assigns_same_engine_twice file w body w' :
  upload_file API_KEY O file w = (inr body, w') →
  let key := session_id (session_state w) +:+ "-" +:+ filename file in
  file_cache (session_state w) !! key = None →
  ∃ qe wa wb,
    setup_llama_index API_KEY O (returns_temp_dir O w) key wa = (inr qe, wb) ∧
    cache_puts (new_events wa wb) = [(key, qe)] ∧
    file_cache (session_state wb) = <[key := qe]> (file_cache (session_state w)) ∧
    cache_puts (new_events w w') = [(key, qe); (key, qe)] ∧
    <[key := qe]> (file_cache (session_state wb)) = file_cache (session_state wb) ∧
    file_cache (session_state w') = file_cache (session_state wb).
Proof.
  intros Hrun key Hkey. apply upload_file_run in Hrun. simpl in Hrun. fold key in Hrun.
  destruct Hrun as (_ & new & Hext & _ & _ & _ & _ & Hcache).
  rewrite (new_events_extends _ _ _ Hext). rewrite Hkey in Hcache.
  destruct Hcache as [(qe & wa & wb & Hsetup & _ & Hb & Hw' & _ & _ & _ & Hputs)
                     |(_ & _ & _ & _ & e & ?)]; [|done].
  exists qe, wa, wb. split_and?; try done.
  - pose proof (setup_run _ _ _ _ _ Hsetup) as (_ & _ & _ & news & Hexts & _ & _ & _ & _ & Hp & _).
    by rewrite (new_events_extends _ _ _ Hexts).
  - rewrite Hb. apply insert_insert_eq.
Qed.

(** C2.  When a file has been uploaded and a file of the same name is
    uploaded again later in the same process, the second upload does not
    enter [setup_llama_index], leaves [session_state] as it found it, the
    entry of the key still being the engine of the first upload, and
    returns the same object [{"id": session id}] as the first, unless one of
    its own file operations raises. *)
Theorem second_upload_is_cache_hit file1 file2 w0 body1 w1 w1' r2 w2 :
  upload_file API_KEY O file1 w0 = (inr body1, w1) →
  later API_KEY O w1 w1' →
  filename file2 = filename file1 →
  upload_file API_KEY O file2 w1' = (r2, w2) →
  let key := session_id (session_state w0) +:+ "-" +:+ filename file1 in
  setup_enters (new_events w1' w2) = [] ∧
  cache_puts (new_events w1' w2) = [] ∧
  session_state w2 = session_state w1' ∧
  file_cache (session_state w2) !! key = file_cache (session_state w1) !! key ∧
  is_Some (file_cache (session_state w1) !! key) ∧
  match last_raised (new_events w1' w2) with
  | Some e => r2 = inl (HTTPException 500 (str e))
  | None => r2 = inr body1
  end.
Proof.
  intros Hup1 Hlater Hname Hup2 key.
  pose proof (upload_key_is_session_dash_filename _ _ _ _ Hup1) as (_ & _ & qe & Hqe & _).
  fold key in Hqe.
  apply upload_file_run in Hup1. simpl in Hup1.
  destruct Hup1 as (Hsid1 & new1 & _ & _ & Hres1 & _).
  assert (body1 = {[ "id" := session_id (session_state w0) ]}) as ->.
  { destruct (last_raised new1); by simplify_eq. }
  pose proof (later_session_id _ _ Hlater) as Hsid.
  pose proof (later_cache_entry _ _ _ _ Hlater Hqe) as Hqe'.
  apply upload_file_run in Hup2. simpl in Hup2.
  rewrite Hname, Hsid, Hsid1 in Hup2. fold key in Hup2. rewrite Hqe' in Hup2.
  destruct Hup2 as (_ & new2 & Hext & _ & Hres & _ & _ & Hss & Hen & Hputs & _).
  rewrite (new_events_extends _ _ _ Hext).
  split_and?; try done.
  by rewrite Hss, Hqe', Hqe.
Qed.

(** The three ways a run of [upload_file] can go: no temporary directory;
    the body ran and removing the directory raised; the body ran and the
    directory was removed. *)
Lemma upload_file_cases file w r w' :
  upload_file API_KEY O file w = (r, w') →
  let temp_dir := returns_temp_dir O w in
  (∃ e, r = inl (HTTPException 500 (str e)) ∧
        w' = add_event (EvCall TemporaryDirectory_enter (Some e)) w) ∨
  (∃ r1 w2,
     upload_in API_KEY O file temp_dir (add_event (EvCall TemporaryDirectory_enter None) w)
       = (r1, w2) ∧
     ((∃ e, r = inl (HTTPException 500 (str e)) ∧
            w' = add_event (EvCall (TemporaryDirectory_exit temp_dir) (Some e)) w2) ∨
      (r = match r1 with
           | inl e => inl (HTTPException 500 (str e))
           | inr body => inr body
           end ∧
       w' = set_fs (rmtree temp_dir)
              (add_event (EvCall (TemporaryDirectory_exit temp_dir) None) w2)))).
Proof.
  intros Hrun temp_dir.
  assert (∃ r0, upload_file_body API_KEY O file w = (r0, w') ∧
            r = match r0 with inl e => inl (HTTPException 500 (str e)) | inr b => inr b end)
    as (r0 & Hbody & ->).
  { apply try_except_run in Hrun as [(e & w1 & Hb & Hh)|(a & Hb & ->)].
    - unfold raise in Hh. simplify_eq. by eexists.
    - by eexists. }
  clear Hrun. unfold upload_file_body, with_TemporaryDirectory in Hbody.
  apply bind_run in Hbody as [(e & Henter & ->)|(td & w1 & Henter & Hfin)].
  { inv_run Henter. left. by eexists. }
  inv_run Henter. fold temp_dir in Hfin.
  apply finally_run in Hfin as (r1 & w2 & Hin & Hexit).
  right. exists r1, w2. split; [done|].
  destruct Hexit as [(e & Hexit & ->)|(Hexit & ->)]; inv_run Hexit.
  - left. by eexists.
  - by right.
Qed.

(** *** The order of the cache assignments *)

(** The newest events of a run of [setup_llama_index] that returns. *)
Lemma setup_trace file_path file_key w qe w' :
  setup_llama_index API_KEY O file_path file_key w = (inr qe, w') →
  ∃ base d rest,
    trace w' = EvSetupReturn file_key qe :: EvCachePut file_key qe
               :: EvCall (update_prompts base d) None :: rest ++ trace w ∧
    qe = set_prompts d base ∧
    cache_puts rest = [] ∧ setup_returns rest = [].
Proof.
  intros Hrun. unfold setup_llama_index in Hrun.
  inv_run Hrun. simpl.
  eexists _, _, _. split.
  - do 3 (apply (f_equal2 cons); [reflexivity|]). solve_ext.
  - done.
Qed.

Lemma upload_in_trace file temp_dir w r w' :
  upload_in API_KEY O file temp_dir w = (r, w') →
  (∃ new, extends w w' new ∧ cache_puts new = [] ∧ setup_returns new = []) ∨
  (∃ key qe base d rest,
     trace w' = EvCachePut key qe :: EvSetupReturn key qe :: EvCachePut key qe
                :: EvCall (update_prompts base d) None :: rest ++ trace w ∧
     qe = set_prompts d base ∧
     cache_puts rest = [] ∧ setup_returns rest = []).
Proof.
  intros Hrun. unfold upload_in in Hrun.
  inv_run Hrun.
  all: simpl in *.
  1-3: left; eexists; split; [solve_ext|done].
  - (* the index builder raised *)
    pose proof (setup_run _ _ _ _ _ Hm0)
      as (_ & _ & _ & new & Hext & _ & _ & _ & _ & Hputs & Hrets & _).
    left. eexists; split; [solve_ext|]. trace_simpl. by rewrite Hputs, Hrets.
  - (* the key was already cached *)
    left. eexists; split; [solve_ext|done].
  - (* the index builder returned an engine *)
    apply setup_trace in Hm0 as (base & d & rest & Htrace & Hqe & Hputs & Hrets).
    simpl in Htrace. right. eexists _, _, base, d, _. split; [|split; [exact Hqe|]].
    + rewrite Htrace. do 4 (apply (f_equal2 cons); [reflexivity|]). solve_ext.
    + trace_simpl. by rewrite Hputs, Hrets.
Qed.

(** What one request adds to the trace, as far as the cache is concerned:
    no assignment and no return of the builder, or the two assignments of a
    build around the builder's return. *)
Lemma handle_trace req w :
  let w' := (handle API_KEY O req w).2 in
  (∃ new, extends w w' new ∧ cache_puts new = [] ∧ setup_returns new = []) ∨
  (∃ exit key qe base d rest,
     trace w' = exit :: EvCachePut key qe :: EvSetupReturn key qe :: EvCachePut key qe
                :: EvCall (update_prompts base d) None :: rest ++ trace w ∧
     is_exit exit = true ∧
     qe = set_prompts d base ∧
     cache_puts rest = [] ∧ setup_returns rest = []).
Proof.
  destruct (handle API_KEY O req w) as [r w'] eqn:Hrun. simpl.
  destruct req as [file|request]; simpl in Hrun.
  - apply upload_file_cases in Hrun.
    destruct Hrun as [(e & _ & ->)|(r1 & w2 & Hin & Hexit)].
    { left. eexists; split; [solve_ext|done]. }
    assert (∃ exit, trace w' = exit :: trace w2 ∧ is_exit exit = true)
      as (exit & Hw' & Hexit').
    { destruct Hexit as [(e & _ & ->)|(_ & ->)]; by eexists. }
    apply upload_in_trace in Hin.
    destruct Hin as [(new & Hext & Hputs & Hrets)
                    |(key & qe & base & d & rest & Htrace & Hqe & Hputs & Hrets)].
    + left. exists (exit :: new ++ [EvCall TemporaryDirectory_enter None]).
      split; [|split].
      * unfold extends in *. rewrite Hw', Hext. simpl. by rewrite <- app_assoc.
      * destruct exit as [[] ?| | |]; try done; trace_simpl; by rewrite Hputs.
      * destruct exit as [[] ?| | |]; try done; trace_simpl; by rewrite Hrets.
    + right. exists exit, key, qe, base, d, (rest ++ [EvCall TemporaryDirectory_enter None]).
      split_and?; try done.
      * rewrite Hw', Htrace. simpl. by rewrite <- app_assoc.
      * trace_simpl. by rewrite Hputs.
      * trace_simpl. by rewrite Hrets.
  - apply query_run in Hrun as (_ & _ & new & Hext & _ & Hputs & Hrets & _).
    left. by exists new.
Qed.

(** Events that neither assign the cache nor return from the builder do
    not matter to [written_when_built]. *)
Lemma written_when_built_skip (l tr : list Event) :
  cache_puts l = [] → setup_returns l = [] →
  written_when_built tr → written_when_built (l ++ tr).
Proof.
  induction l as [|ev l IH]; [done|]. intros Hputs Hrets Htr.
  destruct ev; simpl in *; try done; split; auto.
Qed.

Lemma writes_invariant uuid fs0 w :
  reachable API_KEY O uuid fs0 w → written_when_built (trace w).
Proof.
  unfold reachable. induction 1 as [|w req _ IH]; [done|].
  destruct (handle_trace req w)
    as [(new & Hext & Hputs & Hrets)
       |(exit & key & qe & base & d & rest & Htrace & Hexit & Hqe & Hputs & Hrets)].
  - unfold extends in Hext. rewrite Hext. by apply written_when_built_skip.
  - rewrite Htrace. destruct exit as [[] ?| | |]; try done.
    simpl. split_and?; try done. by apply written_when_built_skip.
Qed.

(** C3 (amended).  In every reachable state, every cache entry is an
    engine carrying the module's prompt, the last step of its construction;
    it is the one engine that [setup_llama_index] returned for its key,
    exactly one run of [setup_llama_index] having returned for that key, and
    every assignment ever made to the key stored that engine.  No partly
    built entry is ever in the cache because every assignment comes after the
    construction is complete: the one inside [setup_llama_index] right after
    [update_prompts] has succeeded and right before the return, the one of
    the handler right after that return. *)
Theorem cache_entries_are_completed_builds uuid fs0 w k qe :
  reachable API_KEY O uuid fs0 w →
  file_cache (session_state w) !! k = Some qe →
  get_prompts qe !! text_qa_template = Some {| template := qa_prompt_tmpl_str |} ∧
  filter (λ p, p.1 = k) (setup_returns (trace w)) = [(k, qe)] ∧
  Forall (λ p, p = (k, qe)) (filter (λ p, p.1 = k) (cache_puts (trace w))) ∧
  written_when_built (trace w).
Proof.
  intros Hreach Hk. pose proof (cache_invariant uuid fs0 w Hreach k) as Hinv.
  rewrite Hk in Hinv. destruct Hinv as (Hprompt & Hrets & Hputs).
  split_and?; [done|done|done|]. by eapply writes_invariant.
Qed.

(** ** The session identifier *)

(** C7.  The session identifier is set once, when the module is loaded,
    to the token that [uuid4] produced; no request changes it, and every
    successful upload, whatever the file, returns [{"id": that token}]. *)
Theorem session_id_is_fixed uuid fs0 w :
  reachable API_KEY O uuid fs0 w →
  session_id (session_state w) = uuid ∧
  ∀ file body w',
    upload_file API_KEY O file w = (inr body, w') →
    body = {[ "id" := uuid ]} ∧
    http_response (inr body) = (200, {[ "id" := uuid ]}) ∧
    session_id (session_state w') = uuid.
Proof.
  intros Hreach. pose proof (later_session_id _ _ Hreach) as Hsid. simpl in Hsid.
  split; [done|]. intros file body w' Hrun.
  apply upload_file_run in Hrun. simpl in Hrun.
  destruct Hrun as (Hsid' & new & _ & _ & Hres & _).
  rewrite Hsid in *.
  assert (body = {[ "id" := uuid ]}) as ->; [|done].
  destruct (last_raised new); by simplify_eq.
Qed.

(** ** The temporary directory *)

(** C8.  The upload handler joins the client's file name to the path of
    the temporary directory as it comes.  For the file name [../x.pdf],
    whenever the write of the upload succeeds, the bytes are in the file
    [x.pdf] next to the temporary directory, a path that is not below the
    directory, and they are still there when the handler has returned and
    the directory has been removed. *)
Theorem upload_escapes_temporary_directory data w r w' :
  let file := {| filename := "../x.pdf"; contents := data |} in
  let temp_dir := returns_temp_dir O w in
  let target := Path.resolve (Path.join temp_dir "../x.pdf") in
  upload_file API_KEY O file w = (r, w') →
  Path.resolve temp_dir ≠ [] →
  (Path.join temp_dir "../x.pdf", data) ∈ file_writes (new_events w w') →
  target = removelast (Path.resolve temp_dir) ++ ["x.pdf"] ∧
  Path.inside (Path.resolve temp_dir) target = false ∧
  fs w' !! target = Some data.
Proof.
  intros file temp_dir target Hrun Hdir Hwritten.
  apply upload_file_run in Hrun. simpl in Hrun. fold temp_dir in Hrun.
  destruct Hrun as (_ & new & Hext & _ & _ & _ & Hfiles & _).
  rewrite (new_events_extends _ _ _ Hext) in Hwritten.
  assert (target = removelast (Path.resolve temp_dir) ++ ["x.pdf"]) as Htarget
    by apply PathFacts.resolve_join_dotdot.
  assert (Path.inside (Path.resolve temp_dir) target = false) as Hout.
  { rewrite Htarget. by apply PathFacts.sibling_outside. }
  split_and?; [done|done|].
  destruct Hfiles as [Hnone|[_ Hfs]].
  - rewrite Hnone in Hwritten. by apply not_elem_of_nil in Hwritten.
  - by apply Hfs.
Qed.

(** ** Further facts about the runs *)

(** What [setup_llama_index] does to the global [Settings]: the embedding
    model is assigned before the index is built, the LLM after. *)
Lemma setup_settings file_path file_key w r w' :
  setup_llama_index API_KEY O file_path file_key w = (r, w') →
  let embed := {| cohere_api_key := API_KEY; model_name := "embed-english-v3.0";
                  input_type := "search_query" |} in
  let llm := {| llm_api_key := API_KEY; llm_model := "command-r-plus" |} in
  match r with
  | inr _ => Settings_embed_model w' = Some embed ∧ Settings_llm w' = Some llm
  | inl _ =>
      (Settings_embed_model w' = Settings_embed_model w ∧ Settings_llm w' = Settings_llm w) ∨
      (Settings_embed_model w' = Some embed ∧ Settings_llm w' = Settings_llm w) ∨
      (Settings_embed_model w' = Some embed ∧ Settings_llm w' = Some llm)
  end.
Proof.
  intros Hrun. unfold setup_llama_index in Hrun.
  inv_run Hrun; simpl; auto.
Qed.

(** The body of the [with] block, seen from the file system and the
    [Settings]: either the write did not complete, and then nothing else
    happened, or the bytes are in the file. *)
Lemma upload_in_effects file temp_dir w r w' :
  upload_in API_KEY O file temp_dir w = (r, w') →
  let path := Path.join temp_dir (filename file) in
  let t := Path.resolve path in
  let embed := {| cohere_api_key := API_KEY; model_name := "embed-english-v3.0";
                  input_type := "search_query" |} in
  let llm := {| llm_api_key := API_KEY; llm_model := "command-r-plus" |} in
  ∃ new, extends w w' new ∧
    ((file_writes new = [] ∧ setup_enters new = [] ∧
      (∃ e, r = inl e) ∧
      session_state w' = session_state w ∧
      Settings_embed_model w' = Settings_embed_model w ∧
      Settings_llm w' = Settings_llm w ∧
      (fs w' = fs w ∨ fs w' = <[t := []]> (fs w))) ∨
     (file_writes new = [(path, contents file)] ∧
      fs w' = <[t := contents file]> (<[t := []]> (fs w)) ∧
      (Settings_embed_model w' = Settings_embed_model w ∨
       Settings_embed_model w' = Some embed) ∧
      (Settings_llm w' = Settings_llm w ∨
       Settings_llm w' = Some llm ∧ Settings_embed_model w' = Some embed) ∧
      (setup_enters new = [] ∨
       setup_enters new
         = [(temp_dir, session_id (session_state w) +:+ "-" +:+ filename file)] ∧
       file_cache (session_state w)
         !! (session_id (session_state w) +:+ "-" +:+ filename file) = None))).
Proof.
  intros Hrun path t embed llm. unfold upload_in in Hrun.
  inv_run Hrun.
  all: simpl in *.
  all: try match goal with
    | Hs : setup_llama_index _ _ _ _ _ = _ |- _ =>
        pose proof (setup_settings _ _ _ _ _ Hs) as Hset;
        pose proof (setup_run _ _ _ _ _ Hs)
          as (Hsid & Hfs & Hout & new & Hext & Hen & Hq & Hw & Hr);
        simpl in *
    end.
  1-3: eexists; split; [solve_ext|]; left; simpl; split_and?; eauto.
  - (* the index builder raised *)
    eexists; split; [solve_ext|]. right. trace_simpl. rewrite Hw, Hen. simpl.
    split_and?; [done|done| | |by right].
    + destruct Hset as [[-> _]|[[-> _]|[-> _]]]; auto.
    + destruct Hset as [[_ ->]|[[_ ->]|[-> ->]]]; auto.
  - (* the key was already cached *)
    eexists; split; [solve_ext|]. right. simpl. split_and?; auto.
  - (* the index builder returned an engine *)
    eexists; split; [solve_ext|]. right. trace_simpl. rewrite Hw, Hen. simpl.
    destruct Hset as [-> ->]. split_and?; auto.
Qed.

Lemma key_inj (sid a b : string) : sid +:+ "-" +:+ a = sid +:+ "-" +:+ b → a = b.
Proof. intros Heq. by apply (inj (String.app sid)), (inj (String.app "-")) in Heq. Qed.

Lemma query_session_state request w :
  session_state (query O request w).2 = session_state w.
Proof.
  destruct (query O request w) as [r w'] eqn:Hrun.
  by apply query_run in Hrun as [Hss _].
Qed.

(** An upload changes the cache at its own key at most. *)
Lemma upload_other_keys file w r w' k :
  upload_file API_KEY O file w = (r, w') →
  k ≠ session_id (session_state w) +:+ "-" +:+ filename file →
  file_cache (session_state w') !! k = file_cache (session_state w) !! k.
Proof.
  intros Hrun Hk. apply upload_file_run in Hrun. simpl in Hrun.
  destruct Hrun as (_ & new & _ & _ & _ & _ & _ & Hcache).
  destruct (file_cache (session_state w) !! _).
  - destruct Hcache as [-> _]. done.
  - destruct Hcache as [(qe & wa & wb & _ & _ & Hb & -> & _)|[-> _]]; [|done].
    rewrite Hb. by rewrite lookup_insert_ne.
Qed.

Lemma later_upload w w' file :
  later API_KEY O w w' → later API_KEY O w (upload_file API_KEY O file w').2.
Proof. intros Hlater. exact (later_step API_KEY O w w' (Upload file) Hlater). Qed.

Lemma later_query w w' request :
  later API_KEY O w w' → later API_KEY O w (query O request w').2.
Proof. intros Hlater. exact (later_step API_KEY O w w' (Query request) Hlater). Qed.

(** ** Further properties of the cache *)

(** X1.  No request removes or replaces a cache entry: across any sequence
    of uploads and queries the cache only grows. *)
Theorem cache_only_grows w w' :
  later API_KEY O w w' →
  file_cache (session_state w) ⊆ file_cache (session_state w').
Proof.
  induction 1 as [|w' req _ IH]; [done|].
  etrans; [exact IH|].
  destruct (handle_step req w') as (_ & new & _ & [(-> & _)|(key & qe & Hnone & -> & _)]).
  - done.
  - by apply insert_subseteq.
Qed.

(** X2.  Every key of the cache is the session identifier, a hyphen and a
    file name; a query whose [file_key] is not of that form is never
    answered, it gets the missing-key error. *)
Theorem cache_keys_carry_session_id uuid fs0 w :
  reachable API_KEY O uuid fs0 w →
  (∀ k, is_Some (file_cache (session_state w) !! k) → ∃ name, k = uuid +:+ "-" +:+ name) ∧
  (∀ request,
     (∀ name, file_key request ≠ uuid +:+ "-" +:+ name) →
     (query O request w).1 = inl (HTTPException 500 "404: Query engine not found.")).
Proof.
  intros Hreach.
  assert (∀ k, is_Some (file_cache (session_state w) !! k) →
               ∃ name, k = uuid +:+ "-" +:+ name) as Hkeys.
  { unfold reachable in Hreach. induction Hreach as [|w req Hlater IH]; intros k Hk.
    { simpl in Hk. rewrite lookup_empty in Hk. by destruct Hk. }
    pose proof (later_session_id _ _ Hlater) as Hsid. simpl in Hsid.
    destruct req as [file|request]; simpl in Hk.
    - destruct (upload_file API_KEY O file w) as [r w'] eqn:Hrun. simpl in Hk.
      destruct (decide (k = session_id (session_state w) +:+ "-" +:+ filename file))
        as [->|Hne].
      + rewrite Hsid. by eexists.
      + rewrite (upload_other_keys _ _ _ _ _ Hrun Hne) in Hk. by apply IH.
    - rewrite query_session_state in Hk. by apply IH. }
  split; [done|]. intros request Hform.
  destruct (file_cache (session_state w) !! file_key request) as [qe|] eqn:Hk.
  - destruct (Hkeys (file_key request)) as [name Hname]; [by rewrite Hk|].
    by destruct (Hform name).
  - unfold query, try_except, query_body, print, modify, gets, raise, mbind, M_bind.
    simpl. by rewrite Hk.
Qed.

(** X3.  The cache has exactly as many entries as [setup_llama_index] has
    returned engines: one entry per completed build, none ever dropped. *)
Theorem cache_size_counts_builds uuid fs0 w :
  reachable API_KEY O uuid fs0 w →
  size (file_cache (session_state w)) = length (setup_returns (trace w)).
Proof.
  unfold reachable. induction 1 as [|w req _ IH]; [done|].
  destruct (handle_step req w)
    as (_ & new & Hext & [(-> & _ & Hrets)|(key & qe & Hnone & -> & _ & Hrets & _)]);
    unfold extends in Hext; rewrite Hext, setup_returns_app, Hrets; simpl.
  - done.
  - rewrite map_size_insert_None by done. by rewrite IH.
Qed.

(** X4.  Files of different names have different keys, and an upload,
    however it ends, leaves the entry of every other file name as it
    was. *)
Theorem other_names_are_untouched file w r w' name :
  upload_file API_KEY O file w = (r, w') →
  name ≠ filename file →
  let sid := session_id (session_state w) in
  sid +:+ "-" +:+ name ≠ sid +:+ "-" +:+ filename file ∧
  file_cache (session_state w') !! (sid +:+ "-" +:+ name)
    = file_cache (session_state w) !! (sid +:+ "-" +:+ name).
Proof.
  intros Hrun Hname sid.
  assert (sid +:+ "-" +:+ name ≠ sid +:+ "-" +:+ filename file) as Hne.
  { intros Heq. by apply key_inj in Heq. }
  split; [done|]. by eapply upload_other_keys.
Qed.

(** X9.  An upload changes the shared state only through a completed
    build: when [setup_llama_index] did not return an engine (it raised, or
    was not reached, or the key was cached), [session_state] is untouched;
    when it did, the cache gained that engine under the upload's key, which
    was absent. *)
Theorem failed_build_caches_nothing file w r w' :
  upload_file API_KEY O file w = (r, w') →
  let key := session_id (session_state w) +:+ "-" +:+ filename file in
  (setup_returns (new_events w w') = [] ∧ session_state w' = session_state w) ∨
  (∃ qe, setup_returns (new_events w w') = [(key, qe)] ∧
         file_cache (session_state w) !! key = None ∧
         file_cache (session_state w') = <[key := qe]> (file_cache (session_state w))).
Proof.
  intros Hrun key. apply upload_file_run in Hrun. simpl in Hrun. fold key in Hrun.
  destruct Hrun as (_ & new & Hext & _ & _ & _ & _ & Hcache).
  rewrite (new_events_extends _ _ _ Hext).
  destruct (file_cache (session_state w) !! key) eqn:Hkey.
  - left. by destruct Hcache as (? & _ & _ & ?).
  - destruct Hcache as [(qe & wa & wb & _ & _ & Hb & Hw' & _ & _ & Hr & _)
                       |(? & _ & _ & ? & _)]; [right|by left].
    exists qe. by rewrite Hw', Hb.
Qed.

(** ** Further properties of the upload handler *)

(** X8.  The index builder is entered at most once per upload, with the
    request's temporary directory and key, and only when the key was absent
    and the uploaded bytes had been written. *)
Theorem builder_runs_after_write file w r w' :
  upload_file API_KEY O file w = (r, w') →
  let key := session_id (session_state w) +:+ "-" +:+ filename file in
  let temp_dir := returns_temp_dir O w in
  setup_enters (new_events w w') = [] ∨
  (setup_enters (new_events w w') = [(temp_dir, key)] ∧
   file_cache (session_state w) !! key = None ∧
   file_writes (new_events w w') = [(Path.join temp_dir (filename file), contents file)]).
Proof.
  intros Hrun key temp_dir.
  apply upload_file_cases in Hrun. fold temp_dir in Hrun.
  destruct Hrun as [(e & _ & ->)|(r1 & w2 & Hin & Hexit)].
  { left. by rewrite (new_events_extends _ _ [EvCall TemporaryDirectory_enter (Some e)]). }
  apply upload_in_effects in Hin. simpl in Hin. fold key in Hin.
  destruct Hin as (new & Hext & Hin).
  assert (∃ x, extends w w'
                 (EvCall (TemporaryDirectory_exit temp_dir) x
                    :: new ++ [EvCall TemporaryDirectory_enter None])) as [x Hext'].
  { destruct Hexit as [(e & _ & ->)|(_ & ->)]; eexists; solve_ext. }
  rewrite (new_events_extends _ _ _ Hext'). trace_simpl.
  destruct Hin as [(_ & -> & _)|(-> & _ & _ & _ & [->|[-> Hkey]])]; simpl; auto.
Qed.

(** X10.  An upload that answers an error has left [session_state] as it
    was, with one exception: the build completed and it was the removal of
    the temporary directory that raised; the error reported is then that of
    the removal. *)
Theorem error_changes_cache_only_on_exit_failure file w e w' :
  upload_file API_KEY O file w = (inl e, w') →
  session_state w' ≠ session_state w →
  ∃ x rest,
    new_events w w' = EvCall (TemporaryDirectory_exit (returns_temp_dir O w)) (Some x) :: rest ∧
    e = HTTPException 500 (str x) ∧
    setup_returns rest ≠ [].
Proof.
  intros Hrun Hchanged.
  apply upload_file_cases in Hrun.
  destruct Hrun as [(x & _ & ->)|(r1 & w2 & Hin & Hexit)]; [done|].
  apply upload_in_run in Hin. simpl in Hin.
  destruct Hin as (_ & new & Hext & _ & Hres & _ & Hcache).
  assert (session_state w2 ≠ session_state w) as Hchanged2.
  { by destruct Hexit as [(? & _ & ->)|(_ & ->)]. }
  assert (setup_returns new ≠ [] ∧ ∃ body, r1 = inr body) as [Hrets [body ->]].
  { destruct (file_cache (session_state w) !! _).
    - by destruct Hcache as [? _].
    - destruct Hcache as [(qe & wa & wb & _ & _ & _ & _ & _ & _ & -> & _ & ->)|[? _]];
        [|done]. split; [done|by eexists]. }
  destruct Hexit as [(x & Hr & ->)|(Hr & _)]; [|done].
  exists x, (new ++ [EvCall TemporaryDirectory_enter None]).
  split_and?.
  - apply new_events_extends. solve_ext.
  - by simplify_eq.
  - rewrite setup_returns_app. by destruct (setup_returns new).
Qed.

(** ** Further properties of the temporary directory *)

(** X5.  A file name that starts with a separator replaces the path of
    the temporary directory altogether: the file the handler writes is the
    one the client named, and unless that path lies below the temporary
    directory the bytes are still there when the handler has returned. *)
Theorem absolute_name_is_written_as_given file w r w' :
  Path.startswith_sep (filename file) = true →
  upload_file API_KEY O file w = (r, w') →
  let temp_dir := returns_temp_dir O w in
  Path.join temp_dir (filename file) = filename file ∧
  (file_writes (new_events w w') = [] ∨
   file_writes (new_events w w') = [(filename file, contents file)] ∧
   (Path.inside (Path.resolve temp_dir) (Path.resolve (filename file)) = false →
    fs w' !! Path.resolve (filename file) = Some (contents file))).
Proof.
  intros Habs Hrun temp_dir.
  assert (Path.join temp_dir (filename file) = filename file) as Hjoin.
  { unfold Path.join. by rewrite Habs. }
  split; [done|].
  apply upload_file_run in Hrun. simpl in Hrun. fold temp_dir in Hrun.
  destruct Hrun as (_ & new & Hext & _ & _ & _ & Hfiles & _).
  rewrite (new_events_extends _ _ _ Hext). by rewrite Hjoin in Hfiles.
Qed.

(** X6.  When the temporary directory has been removed at the end of an
    upload, no file is left below it. *)
Theorem removed_directory_leaves_nothing file w r w' :
  upload_file API_KEY O file w = (r, w') →
  head (new_events w w')
    = Some (EvCall (TemporaryDirectory_exit (returns_temp_dir O w)) None) →
  ∀ p, Path.inside (Path.resolve (returns_temp_dir O w)) p = true → fs w' !! p = None.
Proof.
  intros Hrun Hnew p Hp.
  apply upload_file_cases in Hrun.
  destruct Hrun as [(e & _ & ->)|(r1 & w2 & Hin & Hexit)].
  { by rewrite (new_events_extends _ _ [EvCall TemporaryDirectory_enter (Some e)]) in Hnew. }
  apply upload_in_run in Hin. destruct Hin as (_ & new & Hext & _).
  destruct Hexit as [(e & _ & ->)|(_ & ->)].
  - rewrite (new_events_extends _ _
               (EvCall (TemporaryDirectory_exit (returns_temp_dir O w)) (Some e)
                  :: new ++ [EvCall TemporaryDirectory_enter None])) in Hnew
      by solve_ext.
    by simplify_eq/=.
  - simpl. unfold rmtree. apply map_lookup_filter_None. right.
    intros x _. simpl. by rewrite Hp.
Qed.

(** X7.  An upload under a plain file name (one directory entry, no
    separator, not [.] or [..]) writes below the temporary directory only:
    every file outside the directory is after the upload what it was
    before, however the upload ends. *)
Theorem plain_name_touches_nothing_outside file w r w' :
  Path.plain (filename file) = true →
  upload_file API_KEY O file w = (r, w') →
  let temp_dir := returns_temp_dir O w in
  Path.resolve (Path.join temp_dir (filename file))
    = Path.resolve temp_dir ++ [filename file] ∧
  ∀ p, Path.inside (Path.resolve temp_dir) p = false → fs w' !! p = fs w !! p.
Proof.
  intros Hplain Hrun temp_dir.
  pose proof (PathFacts.resolve_join_plain temp_dir _ Hplain) as Ht.
  split; [done|]. intros p Hp.
  assert (p ≠ Path.resolve (Path.join temp_dir (filename file))) as Hne.
  { intros ->. rewrite Ht, PathFacts.child_inside in Hp. done. }
  apply upload_file_cases in Hrun. fold temp_dir in Hrun.
  destruct Hrun as [(e & _ & ->)|(r1 & w2 & Hin & Hexit)]; [done|].
  apply upload_in_effects in Hin. simpl in Hin.
  destruct Hin as (new & _ & Hin).
  assert (fs w2 !! p = fs w !! p) as Hw2.
  { destruct Hin as [(_ & _ & _ & _ & _ & _ & [-> | ->])|(_ & -> & _)];
      by rewrite ?lookup_insert_ne. }
  destruct Hexit as [(e & _ & ->)|(_ & ->)]; simpl; [done|].
  rewrite <- Hw2. unfold rmtree.
  destruct (fs w2 !! p) as [x|] eqn:Hx.
  - by apply map_lookup_filter_Some.
  - apply map_lookup_filter_None. by left.
Qed.

(** ** Further properties of the handlers together *)

Lemma query_settings request w :
  Settings_embed_model (query O request w).2 = Settings_embed_model w ∧
  Settings_llm (query O request w).2 = Settings_llm w.
Proof.
  destruct (query O request w) as [r w'] eqn:Hrun. simpl.
  unfold query in Hrun.
  apply try_except_run in Hrun as [(e & w1 & Hbody & Hh)|(a & Hbody & ->)];
    unfold query_body in Hbody; inv_run Hbody; try inv_run Hh; done.
Qed.


(** X13.  A query never enters the index builder, never assigns the
    cache, never writes a file and leaves the file system and the global
    [Settings] as they were; it puts at most one question to an engine. *)
Theorem query_does_not_build_or_write request w :
  let w' := (query O request w).2 in
  setup_enters (new_events w w') = [] ∧
  cache_puts (new_events w w') = [] ∧
  file_writes (new_events w w') = [] ∧
  (length (query_calls (new_events w w')) ≤ 1)%nat ∧
  fs w' = fs w ∧
  Settings_embed_model w' = Settings_embed_model w ∧
  Settings_llm w' = Settings_llm w.
Proof.
  simpl. pose proof (query_settings request w) as [Hembed Hllm].
  destruct (query O request w) as [r w'] eqn:Hrun. simpl in *.
  apply query_run in Hrun as (_ & Hfs & new & Hext & Hen & Hputs & _ & Hw & Hres).
  rewrite (new_events_extends _ _ _ Hext).
  split_and?; try done.
  destruct (file_cache (session_state w) !! file_key request).
  - destruct Hres as [-> _]. simpl. lia.
  - destruct Hres as [-> _]. simpl. lia.
Qed.

(** X11.  The global [Settings] only ever hold the two Cohere
    configurations that [setup_llama_index] builds from [API_KEY], and the
    LLM is never set without the embedding model (which a build that raises
    may leave set on its own). *)
Theorem settings_hold_the_cohere_models uuid fs0 w :
  reachable API_KEY O uuid fs0 w →
  let embed := {| cohere_api_key := API_KEY; model_name := "embed-english-v3.0";
                  input_type := "search_query" |} in
  let llm := {| llm_api_key := API_KEY; llm_model := "command-r-plus" |} in
  (Settings_embed_model w = None ∨ Settings_embed_model w = Some embed) ∧
  (Settings_llm w = None ∨
   Settings_llm w = Some llm ∧ Settings_embed_model w = Some embed).
Proof.
  intros Hreach embed llm. unfold reachable in Hreach.
  induction Hreach as [|w req _ [IHe IHl]]; [by split; left|].
  assert ((Settings_embed_model (handle API_KEY O req w).2 = Settings_embed_model w ∨
           Settings_embed_model (handle API_KEY O req w).2 = Some embed) ∧
          (Settings_llm (handle API_KEY O req w).2 = Settings_llm w ∨
           Settings_llm (handle API_KEY O req w).2 = Some llm ∧
           Settings_embed_model (handle API_KEY O req w).2 = Some embed)) as [He Hl].
  { destruct req as [file|request]; simpl.
    - destruct (upload_file API_KEY O file w) as [r w'] eqn:Hrun. simpl.
      apply upload_file_cases in Hrun.
      destruct Hrun as [(e & _ & ->)|(r1 & w2 & Hin & Hexit)]; [by split; left|].
      apply upload_in_effects in Hin. simpl in Hin. fold embed llm in Hin.
      destruct Hin as (new & _ & Hin).
      assert (Settings_embed_model w' = Settings_embed_model w2 ∧
              Settings_llm w' = Settings_llm w2) as [-> ->]
        by (by destruct Hexit as [(? & _ & ->)|(_ & ->)]).
      destruct Hin as [(_ & _ & _ & _ & -> & -> & _)|(_ & _ & ? & ? & _)]; auto.
    - pose proof (query_settings request w) as [-> ->]. by split; left. }
  split.
  - destruct He as [-> | ->]; auto.
  - destruct Hl as [-> | [-> ->]]; [|by right].
    destruct IHl as [?|[? Hembed]]; [by left|right]. split; [done|].
    destruct He as [-> | ->]; done.
Qed.

End Facts.

(** * The properties on the scenario *)

Section Scenario.

Import Toy.

(** A run is known by its result and its final world. *)
Lemma run_eq {A B : Type} (p : A * B) (a : A) (b : B) : p.1 = a → p.2 = b → p = (a, b).
Proof. destruct p. simpl. by intros -> ->. Qed.

Example upload_report : upload_file key quiet report w0 = (inr id_S, w1).
Proof. apply run_eq; [vm_compute; reflexivity | unfold w1; reflexivity]. Qed.

Example query_report :
  query quiet ask w1 = (inr {[ "message" := "answer to What is the total?" ]}, w2).
Proof. apply run_eq; [vm_compute; reflexivity | unfold w2; reflexivity]. Qed.

Example plain_name_stays_inside :
  Path.inside (Path.resolve "/tmp/tmpk3v9x2")
    (Path.resolve (Path.join "/tmp/tmpk3v9x2" "report.pdf")) = true.
Proof. vm_compute. reflexivity. Qed.

(** C3 as it was stated fails on the scenario.  Read newest first, the
    trace of the first upload ends: exit of the directory, assignment of the
    handler, return of the builder, assignment inside the builder.  The
    first assignment of the cache is made when [setup_llama_index] has not
    yet returned. *)
Lemma cache_written_before_return :
  reachable key quiet "S" ∅ w1 ∧ ¬ written_after_return (trace w1).
Proof.
  split.
  { exact (later_step key quiet w0 w0 (Upload report) (later_refl key quiet w0)). }
  assert (trace w1
          = EvCall (TemporaryDirectory_exit "/tmp/tmpk3v9x2") None
            :: EvCachePut "S-report.pdf" engine1
            :: EvSetupReturn "S-report.pdf" engine1
            :: EvCachePut "S-report.pdf" engine1
            :: drop 4 (trace w1)) as Htrace by reflexivity.
  assert (setup_returns (drop 4 (trace w1)) = []) as Hnone by reflexivity.
  intros Hafter. rewrite Htrace in Hafter.
  destruct Hafter as [_ Hafter]. destruct Hafter as [_ Hafter].
  destruct Hafter as [_ Hafter]. destruct Hafter as [Hin _].
  rewrite Hnone in Hin. by apply not_elem_of_nil in Hin.
Qed.


(** The missing key of the scenario: the answer is a 500. *)
Lemma query_unknown_key_witness :
  file_cache (session_state w1) !! file_key ask_missing = None ∧
  (query quiet ask_missing w1).1 = inl (HTTPException 500 "404: Query engine not found.") ∧
  http_response (query quiet ask_missing w1).1
    = (500, {[ "detail" := "404: Query engine not found." ]}).
Proof.
  split; [reflexivity|].
  apply (query_unknown_key_responds_500 quiet ask_missing w1).
  reflexivity.
Defined.


(** The builder on the scenario's first upload. *)
Lemma setup_llama_index_witness :
  setup_llama_index key quiet "/tmp/tmpk3v9x2" "S-report.pdf" w0
    = (inr engine1, (setup_llama_index key quiet "/tmp/tmpk3v9x2" "S-report.pdf" w0).2) ∧
  get_prompts engine1 !! text_qa_template = Some {| template := qa_prompt_tmpl_str |} ∧
  file_cache
    (session_state (setup_llama_index key quiet "/tmp/tmpk3v9x2" "S-report.pdf" w0).2)
    !! "S-report.pdf" = Some engine1.
Proof.
  assert (setup_llama_index key quiet "/tmp/tmpk3v9x2" "S-report.pdf" w0
          = (inr engine1,
             (setup_llama_index key quiet "/tmp/tmpk3v9x2" "S-report.pdf" w0).2)) as Hrun
    by (apply run_eq; reflexivity).
  destruct (setup_llama_index_builds_and_caches key quiet _ _ _ _ _ Hrun)
    as (Hprompt & _ & _ & _ & _ & Hcache).
  split_and?; [exact Hrun | exact Hprompt | exact Hcache].
Defined.

(** The scenario's upload and the question that follows it. *)
Lemma upload_key_witness :
  upload_file key quiet report w0 = (inr id_S, w1) ∧
  ∃ qe, file_cache (session_state w1) !! "S-report.pdf" = Some qe ∧
        query_calls (new_events w1 w2) = [(qe, "What is the total?")].
Proof.
  assert (upload_file key quiet report w0 = (inr id_S, w1)) as Hup
    by (apply run_eq; [vm_compute; reflexivity | unfold w3, w2, w1; reflexivity]).
  assert (query quiet {| prompt := "What is the total?"; file_key := "S-report.pdf" |} w1
          = (inr {[ "message" := "answer to What is the total?" ]}, w2)) as Hq
    by (apply run_eq; [vm_compute; reflexivity | unfold w3, w2, w1; reflexivity]).
  split; [exact Hup|].
  destruct (upload_key_is_session_dash_filename key quiet report w0 id_S w1 Hup)
    as (_ & _ & qe & Hqe & Hquery).
  exists qe. split; [exact Hqe|].
  destruct (Hquery _ _ _ Hq) as [Hcalls _]. exact Hcalls.
Defined.

(** The scenario's first upload found its key absent. *)
Lemma miss_assigns_witness :
  upload_file key quiet report w0 = (inr id_S, w1) ∧
  file_cache (session_state w0) !! "S-report.pdf" = None ∧
  ∃ qe, cache_puts (new_events w0 w1) = [("S-report.pdf", qe); ("S-report.pdf", qe)] ∧
        file_cache (session_state w1) = <["S-report.pdf" := qe]> (file_cache (session_state w0)).
Proof.
  assert (upload_file key quiet report w0 = (inr id_S, w1)) as Hup
    by (apply run_eq; [vm_compute; reflexivity | unfold w3, w2, w1; reflexivity]).
  assert (file_cache (session_state w0) !! "S-report.pdf" = None) as Hmiss
    by reflexivity.
  split; [exact Hup|]. split; [exact Hmiss|].
  destruct (miss_assigns_same_engine_twice key quiet report w0 id_S w1 Hup Hmiss)
    as (qe & wa & wb & _ & _ & Hb & Hputs & _ & Hw1).
  exists qe. split; [exact Hputs|]. rewrite Hw1. exact Hb.
Defined.

(** The scenario's second upload of [report.pdf], after the question. *)
Lemma second_upload_witness :
  upload_file key quiet report w0 = (inr id_S, w1) ∧
  later key quiet w1 w2 ∧
  filename report_again = filename report ∧
  upload_file key quiet report_again w2 = (inr id_S, w3) ∧
  setup_enters (new_events w2 w3) = [] ∧
  session_state w3 = session_state w2.
Proof.
  assert (upload_file key quiet report w0 = (inr id_S, w1)) as Hup
    by (apply run_eq; [vm_compute; reflexivity | unfold w3, w2, w1; reflexivity]).
  assert (later key quiet w1 w2) as Hlater
    by exact (later_step key quiet w1 w1 (Query ask) (later_refl key quiet w1)).
  assert (filename report_again = filename report) as Hname by reflexivity.
  assert (upload_file key quiet report_again w2 = (inr id_S, w3)) as Hup2
    by (apply run_eq; [vm_compute; reflexivity | unfold w3, w2, w1; reflexivity]).
  destruct (second_upload_is_cache_hit key quiet report report_again w0 id_S w1 w2
              (inr id_S) w3 Hup Hlater Hname Hup2)
    as (Henters & _ & Hss & _).
  split_and?; [exact Hup | exact Hlater | exact Hname | exact Hup2 | exact Henters | exact Hss].
Defined.

(** The cache entry of the scenario, after the first upload. *)
Lemma cache_entries_witness :
  reachable key quiet "S" ∅ w1 ∧
  file_cache (session_state w1) !! "S-report.pdf" = Some engine1 ∧
  get_prompts engine1 !! text_qa_template = Some {| template := qa_prompt_tmpl_str |} ∧
  filter (λ p, p.1 = "S-report.pdf") (setup_returns (trace w1)) = [("S-report.pdf", engine1)] ∧
  written_when_built (trace w1).
Proof.
  assert (reachable key quiet "S" ∅ w1) as Hreach
    by exact (later_step key quiet w0 w0 (Upload report) (later_refl key quiet w0)).
  assert (file_cache (session_state w1) !! "S-report.pdf" = Some engine1) as Hentry
    by reflexivity.
  destruct (cache_entries_are_completed_builds key quiet "S" ∅ w1 "S-report.pdf" engine1
              Hreach Hentry) as (Hprompt & Hreturns & _ & Horder).
  split_and?; [exact Hreach | exact Hentry | exact Hprompt | exact Hreturns | exact Horder].
Defined.

(** The session identifier of the scenario. *)
Lemma session_id_witness :
  reachable key quiet "S" ∅ w2 ∧
  session_id (session_state w2) = "S" ∧
  upload_file key quiet report_again w2 = (inr id_S, w3) ∧
  id_S = {[ "id" := "S" ]}.
Proof.
  assert (reachable key quiet "S" ∅ w2) as Hreach
    by exact (later_step key quiet w0 w1 (Query ask)
                (later_step key quiet w0 w0 (Upload report) (later_refl key quiet w0))).
  assert (upload_file key quiet report_again w2 = (inr id_S, w3)) as Hup2
    by (apply run_eq; [vm_compute; reflexivity | unfold w3, w2, w1; reflexivity]).
  destruct (session_id_is_fixed key quiet "S" ∅ w2 Hreach) as [Hsid Hupload].
  destruct (Hupload report_again id_S w3 Hup2) as (Hbody & _).
  split_and?; [exact Hreach | exact Hsid | exact Hup2 | exact Hbody].
Defined.

(** The escaping name on the scenario's directory. *)
Lemma upload_escapes_witness :
  Path.resolve (returns_temp_dir quiet w0) ≠ [] ∧
  ("/tmp/tmpk3v9x2/../x.pdf", contents escaping)
    ∈ file_writes (new_events w0 (upload_file key quiet escaping w0).2) ∧
  Path.inside ["tmp"; "tmpk3v9x2"] ["tmp"; "x.pdf"] = false ∧
  fs (upload_file key quiet escaping w0).2 !! ["tmp"; "x.pdf"] = Some (contents escaping).
Proof.
  assert (upload_file key quiet escaping w0
          = ((upload_file key quiet escaping w0).1, (upload_file key quiet escaping w0).2))
    as Hrun by (apply run_eq; reflexivity).
  assert (Path.resolve (returns_temp_dir quiet w0) ≠ []) as Hdir
    by (simpl; discriminate).
  assert ((Path.join (returns_temp_dir quiet w0) "../x.pdf", contents escaping)
            ∈ file_writes (new_events w0 (upload_file key quiet escaping w0).2)) as Hwritten
    by apply list_elem_of_here.
  destruct (upload_escapes_temporary_directory key quiet (contents escaping) w0 _ _
              Hrun Hdir Hwritten) as (_ & Hout & Hfs).
  split_and?; [exact Hdir | exact Hwritten | exact Hout | exact Hfs].
Defined.

(** ** The further properties on the scenario *)

Lemma cache_only_grows_witness :
  later key quiet w1 w3 ∧
  file_cache (session_state w1) ⊆ file_cache (session_state w3).
Proof.
  assert (later key quiet w1 w3) as Hlater
    by (unfold w3, w2; apply later_upload, later_query, later_refl).
  split; [exact Hlater|]. exact (cache_only_grows key quiet w1 w3 Hlater).
Defined.

Lemma cache_keys_witness :
  reachable key quiet "S" ∅ w1 ∧
  is_Some (file_cache (session_state w1) !! "S-report.pdf") ∧
  ∃ name, "S-report.pdf" = "S" +:+ "-" +:+ name.
Proof.
  assert (reachable key quiet "S" ∅ w1) as Hreach
    by exact (later_step key quiet w0 w0 (Upload report) (later_refl key quiet w0)).
  assert (is_Some (file_cache (session_state w1) !! "S-report.pdf")) as Hentry
    by (exists engine1; reflexivity).
  destruct (cache_keys_carry_session_id key quiet "S" ∅ w1 Hreach) as [Hkeys _].
  split_and?; [exact Hreach | exact Hentry | exact (Hkeys _ Hentry)].
Defined.

Lemma cache_size_witness :
  reachable key quiet "S" ∅ w3 ∧
  size (file_cache (session_state w3)) = length (setup_returns (trace w3)).
Proof.
  assert (reachable key quiet "S" ∅ w3) as Hreach
    by (unfold reachable, w3, w2, w1;
        apply later_upload, later_query, later_upload, later_refl).
  split; [exact Hreach|]. exact (cache_size_counts_builds key quiet "S" ∅ w3 Hreach).
Defined.

Lemma other_names_witness :
  upload_file key quiet absolute w1
    = ((upload_file key quiet absolute w1).1, (upload_file key quiet absolute w1).2) ∧
  "report.pdf" ≠ filename absolute ∧
  file_cache (session_state (upload_file key quiet absolute w1).2) !! "S-report.pdf"
    = file_cache (session_state w1) !! "S-report.pdf".
Proof.
  assert (upload_file key quiet absolute w1
          = ((upload_file key quiet absolute w1).1, (upload_file key quiet absolute w1).2))
    as Hrun by (apply run_eq; reflexivity).
  assert ("report.pdf" ≠ filename absolute) as Hname by (simpl; discriminate).
  destruct (other_names_are_untouched key quiet absolute w1 _ _ "report.pdf" Hrun Hname)
    as [_ Hsame].
  split_and?; [exact Hrun | exact Hname | exact Hsame].
Defined.

Lemma failed_build_witness :
  upload_file key no_files report w0
    = ((upload_file key no_files report w0).1, (upload_file key no_files report w0).2) ∧
  session_state (upload_file key no_files report w0).2 = session_state w0.
Proof.
  assert (upload_file key no_files report w0
          = ((upload_file key no_files report w0).1, (upload_file key no_files report w0).2))
    as Hrun by (apply run_eq; reflexivity).
  split; [exact Hrun|].
  destruct (failed_build_caches_nothing key no_files report w0 _ _ Hrun)
    as [[_ Hsame]|(qe & Hrets & _)]; [exact Hsame|].
  exfalso. revert Hrets. vm_compute. discriminate.
Defined.

Lemma builder_runs_after_write_witness :
  upload_file key quiet report w0 = (inr id_S, w1) ∧
  setup_enters (new_events w0 w1) = [("/tmp/tmpk3v9x2", "S-report.pdf")] ∧
  file_writes (new_events w0 w1) = [("/tmp/tmpk3v9x2/report.pdf", contents report)].
Proof.
  assert (upload_file key quiet report w0 = (inr id_S, w1)) as Hrun
    by (apply run_eq; [vm_compute; reflexivity | unfold w1; reflexivity]).
  split; [exact Hrun|].
  destruct (builder_runs_after_write key quiet report w0 _ _ Hrun)
    as [Hnone|(Henters & _ & Hwrites)].
  - exfalso. revert Hnone. vm_compute. discriminate.
  - split; [exact Henters | exact Hwrites].
Defined.

Lemma error_changes_cache_witness :
  upload_file key stuck_exit report w0
    = (inl (HTTPException 500 "[Errno 39] Directory not empty: '/tmp/tmpk3v9x2'"),
       (upload_file key stuck_exit report w0).2) ∧
  session_state (upload_file key stuck_exit report w0).2 ≠ session_state w0 ∧
  ∃ x rest,
    new_events w0 (upload_file key stuck_exit report w0).2
      = EvCall (TemporaryDirectory_exit "/tmp/tmpk3v9x2") (Some x) :: rest.
Proof.
  assert (upload_file key stuck_exit report w0
          = (inl (HTTPException 500 "[Errno 39] Directory not empty: '/tmp/tmpk3v9x2'"),
             (upload_file key stuck_exit report w0).2)) as Hrun
    by (apply run_eq; [vm_compute; reflexivity | reflexivity]).
  assert (session_state (upload_file key stuck_exit report w0).2 ≠ session_state w0)
    as Hchanged.
  { intros Heq. apply (f_equal (λ s, file_cache s !! "S-report.pdf")) in Heq.
    revert Heq. vm_compute. discriminate. }
  destruct (error_changes_cache_only_on_exit_failure key stuck_exit report w0 _ _
              Hrun Hchanged) as (x & rest & Hnew & _ & _).
  split_and?; [exact Hrun | exact Hchanged | exists x, rest; exact Hnew].
Defined.

Lemma absolute_name_witness :
  Path.startswith_sep (filename absolute) = true ∧
  upload_file key quiet absolute w0
    = ((upload_file key quiet absolute w0).1, (upload_file key quiet absolute w0).2) ∧
  Path.join "/tmp/tmpk3v9x2" "/srv/x.pdf" = "/srv/x.pdf" ∧
  fs (upload_file key quiet absolute w0).2 !! ["srv"; "x.pdf"] = Some (contents absolute).
Proof.
  assert (Path.startswith_sep (filename absolute) = true) as Habs by reflexivity.
  assert (upload_file key quiet absolute w0
          = ((upload_file key quiet absolute w0).1, (upload_file key quiet absolute w0).2))
    as Hrun by (apply run_eq; reflexivity).
  destruct (absolute_name_is_written_as_given key quiet absolute w0 _ _ Habs Hrun)
    as [Hjoin [Hnone|[_ Hfs]]].
  - exfalso. revert Hnone. vm_compute. discriminate.
  - split_and?; [exact Habs | exact Hrun | exact Hjoin | exact (Hfs eq_refl)].
Defined.

Lemma removed_directory_witness :
  upload_file key quiet report w0 = (inr id_S, w1) ∧
  head (new_events w0 w1) = Some (EvCall (TemporaryDirectory_exit "/tmp/tmpk3v9x2") None) ∧
  fs w1 !! ["tmp"; "tmpk3v9x2"; "report.pdf"] = None.
Proof.
  assert (upload_file key quiet report w0 = (inr id_S, w1)) as Hrun
    by (apply run_eq; [vm_compute; reflexivity | unfold w1; reflexivity]).
  assert (head (new_events w0 w1)
          = Some (EvCall (TemporaryDirectory_exit (returns_temp_dir quiet w0)) None))
    as Hhead by reflexivity.
  split_and?; [exact Hrun | exact Hhead |].
  exact (removed_directory_leaves_nothing key quiet report w0 _ _ Hrun Hhead
           ["tmp"; "tmpk3v9x2"; "report.pdf"] eq_refl).
Defined.

Lemma plain_name_witness :
  Path.plain (filename report) = true ∧
  upload_file key quiet report w0 = (inr id_S, w1) ∧
  Path.resolve (Path.join "/tmp/tmpk3v9x2" "report.pdf") = ["tmp"; "tmpk3v9x2"; "report.pdf"] ∧
  fs w1 !! ["tmp"; "x.pdf"] = fs w0 !! ["tmp"; "x.pdf"].
Proof.
  assert (Path.plain (filename report) = true) as Hplain by reflexivity.
  assert (upload_file key quiet report w0 = (inr id_S, w1)) as Hrun
    by (apply run_eq; [vm_compute; reflexivity | unfold w1; reflexivity]).
  destruct (plain_name_touches_nothing_outside key quiet report w0 _ _ Hplain Hrun)
    as [Htarget Hframe].
  split_and?; [exact Hplain | exact Hrun | exact Htarget | exact (Hframe ["tmp"; "x.pdf"] eq_refl)].
Defined.

Lemma settings_witness :
  reachable key quiet "S" ∅ w1 ∧
  (Settings_llm w1 = None ∨
   Settings_llm w1 = Some {| llm_api_key := key; llm_model := "command-r-plus" |} ∧
   Settings_embed_model w1
     = Some {| cohere_api_key := key; model_name := "embed-english-v3.0";
               input_type := "search_query" |}).
Proof.
  assert (reachable key quiet "S" ∅ w1) as Hreach
    by exact (later_step key quiet w0 w0 (Upload report) (later_refl key quiet w0)).
  destruct (settings_hold_the_cohere_models key quiet "S" ∅ w1 Hreach) as [_ Hllm].
  split; [exact Hreach | exact Hllm].
Defined.

End Scenario.
